(** * LLDB Eigen data formatter: a shallow embedding and its properties

    The formatter of [LLDB_Eigen_Data_Formatter.py] renders an Eigen matrix
    seen through the debugger as a text grid.  The debugger objects it
    talks to (values, their children, the expression evaluator) are taken
    as records of observations; Python integers are [Z], Python strings are
    [string], and a Python value that is a string or [None] is an
    [option string].  Exceptions are an explicit [Raise] outcome, and the
    code that touches file descriptors or prints runs in a state monad over
    a [world] made of the descriptor table and a log of everything written. *)

From Stdlib Require Import ZArith List String Ascii Bool Lia DecimalString.
From Stdlib Require Import Permutation.
Import ListNotations.

Local Open Scope string_scope.
Local Open Scope Z_scope.

(** ** Outcomes of Python code *)

Inductive exn : Type :=
| ValueError            (* range() with a zero step *)
| AttributeError        (* a method called on None *)
| OSError               (* a failed descriptor operation *)
| IndexError            (* a sequence indexed out of range *)
| HostError (msg : string).  (* anything raised by the debugger's API *)

Inductive outcome (A : Type) : Type :=
| Ok (a : A)
| Raise (e : exn).

Arguments Ok {A} a.
Arguments Raise {A} e.

Definition obind {A B} (o : outcome A) (k : A -> outcome B) : outcome B :=
  match o with
  | Ok a => k a
  | Raise e => Raise e
  end.

Declare Scope outcome_scope.
Delimit Scope outcome_scope with outcome.
Notation "'try!' x <- c ; k" := (obind c (fun x => k))
  (at level 61, x name, c at next level, right associativity) : outcome_scope.

(** ** The pieces of Python the formatter uses *)

Module Py.

(** [range(start, stop, step)]: the number of elements, then the elements.
    A zero step is an error. *)
Definition range_len (start stop step : Z) : Z :=
  if 0 <? step then Z.max 0 ((stop - start + step - 1) / step)
  else Z.max 0 ((start - stop - step - 1) / (- step)).

Definition range_list (start stop step : Z) : list Z :=
  map (fun k => start + Z.of_nat k * step)
      (seq 0 (Z.to_nat (range_len start stop step))).

Definition range3 (start stop step : Z) : outcome (list Z) :=
  if step =? 0 then Raise ValueError else Ok (range_list start stop step).

(** [range(start, stop)] is [range(start, stop, 1)] and cannot fail. *)
Definition range2 (start stop : Z) : list Z := range_list start stop 1.

(** [len(s)] *)
Definition len (s : string) : Z := Z.of_nat (String.length s).

Fixpoint spaces (n : nat) : string :=
  match n with
  | O => ""
  | S n' => String " " (spaces n')
  end.

(** [s.rjust(width, ' ')]: [s] itself when it is already that wide. *)
Definition rjust (s : string) (width : Z) : string :=
  spaces (Z.to_nat (width - len s)) ++ s.

(** [str(x)] for an integer, for [True]/[False]/[None], and for a value
    that is a string or [None]. *)
Definition str_int (n : Z) : string := NilZero.string_of_int (Z.to_int n).

Definition str_bool_or_none (b : option bool) : string :=
  match b with
  | Some true => "True"
  | Some false => "False"
  | None => "None"
  end.

Definition str_or_none (v : option string) : string :=
  match v with
  | Some s => s
  | None => "None"
  end.

(** ["".join(parts)] *)
Definition join (parts : list string) : string := String.concat "" parts.

Definition newline : string := String (ascii_of_nat 10) "".

(** [seq[i]] for a list and a non-negative literal index. *)
Definition index {A} (l : list A) (i : nat) : outcome A :=
  match nth_error l i with
  | Some a => Ok a
  | None => Raise IndexError
  end.

End Py.

(** ** Children of a debugger value *)

(** [valobj.GetChildAtIndex(i, lldb.eNoDynamicValues, True).GetValue()] as a
    function of [i]: the text of the scalar, [None] when the child has no
    value, or an exception of the binding. *)
Definition children : Type := Z -> outcome (option string).

(** ** _row_element *)

(** The generator yields one value per index of its range; each [yield]
    evaluates a child access, so each element is an outcome of its own, and
    building the range may fail before the first element. *)
Definition row_indices (row rows cols : Z) (is_row_major : option bool)
  : outcome (list Z) :=
  match is_row_major with
  | Some true => Ok (Py.range2 (row * cols) ((row + 1) * cols))
  | _ => Py.range3 row (rows * cols) rows
  end.

Definition _row_element (valobj : children) (row rows cols : Z)
           (is_row_major : option bool)
  : outcome (list (outcome (option string))) :=
  (try! idx <- row_indices row rows cols is_row_major;
   Ok (map valobj idx))%outcome.

(** ** print_raw_matrix *)

Definition too_large : string := "[matrix too large]".

Definition header (rows cols : Z) (is_row_major : option bool) : string :=
  "rows: " ++ Py.str_int rows ++ ", cols: " ++ Py.str_int cols
  ++ ", is_row_major: " ++ Py.str_bool_or_none is_row_major
  ++ Py.newline ++ "[".

(** The loop that determines the padding. *)
Fixpoint padding_loop (valobj : children) (idx : list Z) (padding : Z)
  : outcome Z :=
  match idx with
  | [] => Ok padding
  | i :: idx' =>
      (try! v <- valobj i;
       padding_loop valobj idx' (Z.max padding (Py.len (Py.str_or_none v))))%outcome
  end.

(** [val.rjust(padding+1, ' ')] for the values a generator yields, consumed
    in order by [join]; [None] has no [rjust]. *)
Fixpoint justify (vals : list (outcome (option string))) (padding : Z)
  : outcome (list string) :=
  match vals with
  | [] => Ok []
  | y :: vals' =>
      (try! v <- y;
       match v with
       | None => Raise AttributeError
       | Some val =>
           try! cells <- justify vals' padding;
           Ok (Py.rjust val (padding + 1) :: cells)
       end)%outcome
  end.

(** The loop that prints the rows, [j] running over [range(0, rows)]. *)
Fixpoint rows_loop (valobj : children) (js : list Z) (rows cols : Z)
         (is_row_major : option bool) (padding : Z) (output : string)
  : outcome string :=
  match js with
  | [] => Ok output
  | j :: js' =>
      let output := if negb (j =? 0) then output ++ " " else output in
      (try! vals <- _row_element valobj j rows cols is_row_major;
       try! cells <- justify vals padding;
       rows_loop valobj js' rows cols is_row_major padding
                 (output ++ (Py.join cells ++ ";" ++ Py.newline)))%outcome
  end.

Definition print_raw_matrix (valobj : children) (rows cols : Z)
           (is_row_major : option bool) : outcome string :=
  if 100 <? rows * cols then Ok too_large
  else
    let output := "" in
    let output := output ++ header rows cols is_row_major in
    (try! padding <- padding_loop valobj (Py.range2 0 (rows * cols)) 1;
     try! output <- rows_loop valobj (Py.range2 0 rows) rows cols
                              is_row_major padding output;
     Ok (output ++ " ]" ++ Py.newline))%outcome.

(** ** The process: descriptors, and what is written through them *)

Module Os.

(** What a descriptor refers to: the null device, or some other open file
    (a terminal, a pipe, a log), named by a number. *)
Inductive target : Type :=
| Null_device
| File (id : nat).

(** The descriptor table, indexed by descriptor; [None] is a closed slot. *)
Definition fd_table : Type := list (option target).

Definition get_fd (fd : nat) (t : fd_table) : option target :=
  match nth_error t fd with
  | Some (Some x) => Some x
  | _ => None
  end.

Fixpoint set_fd (fd : nat) (x : option target) (t : fd_table) : fd_table :=
  match fd, t with
  | O, [] => [x]
  | O, _ :: t' => x :: t'
  | S n, [] => None :: set_fd n x []
  | S n, y :: t' => y :: set_fd n x t'
  end.

(** A new descriptor is the lowest one that is not open. *)
Fixpoint lowest_free (t : fd_table) : nat :=
  match t with
  | [] => O
  | None :: _ => O
  | Some _ :: t' => S (lowest_free t')
  end.

Record world : Type := mkWorld {
  fds : fd_table;
  written : list (target * string)   (* oldest first *)
}.

(** Code with effects on the world, which may raise. *)
Definition M (A : Type) : Type := world -> outcome A * world.

Definition ret {A} (a : A) : M A := fun w => (Ok a, w).

Definition raise {A} (e : exn) : M A := fun w => (Raise e, w).

Definition bind {A B} (m : M A) (k : A -> M B) : M B :=
  fun w =>
    match m w with
    | (Ok a, w') => k a w'
    | (Raise e, w') => (Raise e, w')
    end.

Definition lift {A} (o : outcome A) : M A := fun w => (o, w).

(** [os.open(os.devnull, os.O_RDWR)] *)
Definition open_devnull : M nat :=
  fun w =>
    let fd := lowest_free (fds w) in
    (Ok fd, mkWorld (set_fd fd (Some Null_device) (fds w)) (written w)).

(** [os.dup(fd)] *)
Definition dup (fd : nat) : M nat :=
  fun w =>
    match get_fd fd (fds w) with
    | None => (Raise OSError, w)
    | Some x =>
        let fd' := lowest_free (fds w) in
        (Ok fd', mkWorld (set_fd fd' (Some x) (fds w)) (written w))
    end.

(** [os.dup2(fd, fd2)] *)
Definition dup2 (fd fd2 : nat) : M unit :=
  fun w =>
    match get_fd fd (fds w) with
    | None => (Raise OSError, w)
    | Some x => (Ok tt, mkWorld (set_fd fd2 (Some x) (fds w)) (written w))
    end.

(** [os.close(fd)] *)
Definition close (fd : nat) : M unit :=
  fun w =>
    match get_fd fd (fds w) with
    | None => (Raise OSError, w)
    | Some _ => (Ok tt, mkWorld (set_fd fd None (fds w)) (written w))
    end.

(** Text sent to a descriptor lands in the file it refers to at that
    moment; text sent to a closed descriptor is lost. *)
Definition write (fd : nat) (text : string) (w : world) : world :=
  match get_fd fd (fds w) with
  | None => w
  | Some x => mkWorld (fds w) (written w ++ [(x, text)])
  end.

(** [print(a, b)]: the arguments separated by a space, then a newline, on
    the standard output. *)
Definition print1 (a : string) : M unit :=
  fun w => (Ok tt, write 1 (a ++ Py.newline) w).

Definition print2 (a b : string) : M unit :=
  fun w => (Ok tt, write 1 (a ++ " " ++ b ++ Py.newline) w).

End Os.

Import Os.

Declare Scope M_scope.
Delimit Scope M_scope with M.
Notation "x <- c ;; k" := (bind c (fun x => k))
  (at level 61, c at next level, right associativity) : M_scope.
Notation "' pat <- c ;; k" := (bind c (fun x => match x with pat => k end))
  (at level 61, pat pattern, c at next level, right associativity) : M_scope.
Notation "c ;; k" := (bind c (fun _ => k))
  (at level 61, right associativity) : M_scope.

(** ** suppress_stdout_stderr *)

Record suppress_stdout_stderr : Type := mkSuppress {
  null_fds : list nat;
  save_fds : nat * nat
}.

Definition suppress_init : M suppress_stdout_stderr :=
  (n0 <- open_devnull ;;
   n1 <- open_devnull ;;
   s0 <- dup 1 ;;
   s1 <- dup 2 ;;
   ret (mkSuppress [n0; n1] (s0, s1)))%M.

Definition suppress_enter (self : suppress_stdout_stderr) : M unit :=
  (n0 <- lift (Py.index (null_fds self) 0) ;;
   dup2 n0 1 ;;
   n1 <- lift (Py.index (null_fds self) 1) ;;
   dup2 n1 2)%M.

Definition suppress_exit (self : suppress_stdout_stderr) : M unit :=
  (dup2 (fst (save_fds self)) 1 ;;
   dup2 (snd (save_fds self)) 2 ;;
   n0 <- lift (Py.index (null_fds self) 0) ;;
   close n0 ;;
   n1 <- lift (Py.index (null_fds self) 1) ;;
   close n1)%M.

(** [with suppress_stdout_stderr(): body].  [__exit__] runs whether the body
    returns or raises; it returns [None], so an exception of the body goes
    on to the caller once [__exit__] is done. *)
Definition with_suppress {A} (body : M A) : M A :=
  (self <- suppress_init ;;
   suppress_enter self ;;
   fun w =>
     let (r, w') := body w in
     match suppress_exit self w' with
     | (Ok _, w'') => (r, w'')
     | (Raise e, w'') => (Raise e, w'')
     end)%M.

(** ** Regular expressions, as far as the formatter's pattern goes *)

Module Re.

Inductive item : Type :=
| Chr (c : ascii)               (* a literal character *)
| Plus (cls : ascii -> bool)    (* [cls+], greedy *)
| Group (cls : ascii -> bool).  (* [(cls)], a group of one character *)

Definition lit (s : string) : list item := map Chr (list_ascii_of_string s).

(** A backtracking match of the pattern at the start of [s]; the result is
    the text of the groups, in order. *)
Fixpoint match_here (p : list item) : string -> option (list string) :=
  match p with
  | [] => fun _ => Some []
  | Chr c :: p' =>
      fun s =>
        match s with
        | String a s' => if Ascii.eqb a c then match_here p' s' else None
        | EmptyString => None
        end
  | Group cls :: p' =>
      fun s =>
        match s with
        | String a s' =>
            if cls a
            then match match_here p' s' with
                 | Some gs => Some (String a "" :: gs)
                 | None => None
                 end
            else None
        | EmptyString => None
        end
  | Plus cls :: p' =>
      fix plus (s : string) : option (list string) :=
        match s with
        | String a s' =>
            if cls a
            then match plus s' with
                 | Some gs => Some gs
                 | None => match_here p' s'
                 end
            else None
        | EmptyString => None
        end
  end.

(** [pattern.search(s)]: the match at the leftmost position that has one. *)
Fixpoint search (p : list item) (s : string) : option (list string) :=
  match match_here p s with
  | Some gs => Some gs
  | None =>
      match s with
      | String _ s' => search p s'
      | EmptyString => None
      end
  end.

(** [match.group(1)] *)
Definition group1 (gs : list string) : string := nth 0 gs "".

Definition not_comma (a : ascii) : bool := negb (Ascii.eqb a ",").

(** [\d] on ASCII text *)
Definition digit (a : ascii) : bool :=
  let n := nat_of_ascii a in (48 <=? n)%nat && (n <=? 57)%nat.

End Re.

(** [re.compile(r'Eigen::Matrix<[^,]+, [^,]+, [^,]+, (\d),')] *)
Definition template_regex : list Re.item :=
  (Re.lit "Eigen::Matrix<" ++ [Re.Plus Re.not_comma] ++ Re.lit ", "
   ++ [Re.Plus Re.not_comma] ++ Re.lit ", "
   ++ [Re.Plus Re.not_comma] ++ Re.lit ", "
   ++ [Re.Group Re.digit] ++ Re.lit ",")%list.

(** ** The debugger's values *)

Inductive stream : Type := Stdout | Stderr.

Definition fileno (s : stream) : nat :=
  match s with
  | Stdout => 1%nat
  | Stderr => 2%nat
  end.

(** The value an expression evaluates to, as far as the formatter looks. *)
Record SBResult : Type := mkResult {
  GetValueAsSigned : Z
}.

(** One run of the expression evaluator: what the debugger writes on the
    standard streams meanwhile, then the value, or an exception. *)
Record evaluation : Type := mkEvaluation {
  noise : list (stream * string);
  result : outcome SBResult
}.

(** A storage member reached by [GetValueForExpressionPath]. *)
Record SBData : Type := mkData {
  IsValid : bool;
  IsPointerType : bool;          (* [GetType().IsPointerType()] *)
  GetNumChildren : Z;
  GetChildValue : children
}.

(** The value handed to the formatter. *)
Record SBValue : Type := mkValue {
  GetTypeName : string;                     (* [GetType().GetName()] *)
  m_data_array : SBData;                    (* [".m_storage.m_data.array"] *)
  m_data : SBData;                          (* [".m_storage.m_data"] *)
  GetExpressionPath : string;
  GetSummary : option string;
  GetOwnChildValue : children;              (* [valobj.GetChildAtIndex(..).GetValue()] *)
  EvaluateExpression : string -> evaluation (* in the selected frame *)
}.

Definition emit (n : list (stream * string)) (w : world) : world :=
  fold_left (fun w o => write (fileno (fst o)) (snd o) w) n w.

(** ** The formatter *)

Definition extract_is_row_major (matrix_var : SBValue) : M (option bool) :=
  let matrix_type := GetTypeName matrix_var in
  match Re.search template_regex matrix_type with
  | None =>
      (print2 "Could not determine matrix layout from type:" matrix_type ;;
       ret None)%M
  | Some m =>
      let storage_order := Re.group1 m in
      if String.eqb storage_order "1" then ret (Some true)
      else if String.eqb storage_order "0" then ret (Some false)
      else
        (print2 "Unexpected storage order value:" storage_order ;;
         ret None)%M
  end.

Definition evaluate_expression (valobj : SBValue) (expr : string) : M SBResult :=
  fun w =>
    let ev := EvaluateExpression valobj expr in
    (result ev, emit (noise ev) w).

(** The block that both entry functions run to determine rows and cols. *)
Definition rows_and_cols (valobj : SBValue) (valobj_expression_path : string)
  : M (Z * Z) :=
  with_suppress
    (r <- evaluate_expression valobj (valobj_expression_path ++ ".rows()") ;;
     let rows := GetValueAsSigned r in
     c <- evaluate_expression valobj (valobj_expression_path ++ ".cols()") ;;
     let cols := GetValueAsSigned c in
     ret (rows, cols))%M.

Definition layout_error : string :=
  "error: eigen data formatter: could not infer data layout. printing raw data instead".

Definition fixed_sized_matrix_to_string (valobj : SBValue) : M (option string) :=
  let data := m_data_array valobj in
  let num_data_elements := GetNumChildren data in
  if negb (IsValid data) then ret (GetSummary valobj)
  else
    let valobj_expression_path := GetExpressionPath valobj in
    ('(rows, cols) <- rows_and_cols valobj valobj_expression_path ;;
     '(rows, cols) <-
        (if negb (rows * cols =? num_data_elements)
         then (print1 layout_error ;; ret (num_data_elements, 1))
         else ret (rows, cols)) ;;
     is_row_major <- extract_is_row_major valobj ;;
     s <- lift (print_raw_matrix (GetChildValue data) rows cols is_row_major) ;;
     ret (Some s))%M.

Definition uninitialized : string := "[uninitialized]".

Definition dynamically_sized_matrix_to_string (valobj : SBValue)
  : M (option string) :=
  let data := m_data valobj in
  let num_data_elements := GetNumChildren data in
  if negb (IsValid data) then ret (GetSummary valobj)
  else
    let valobj_expression_path := GetExpressionPath valobj in
    ('(rows, cols) <- rows_and_cols valobj valobj_expression_path ;;
     let memory_accessable :=
       match GetOwnChildValue valobj (rows * cols) with
       | Ok _ => true
       | Raise _ => false
       end in
     if negb memory_accessable then ret (Some uninitialized)
     else
       (is_row_major <- extract_is_row_major valobj ;;
        s <- lift (print_raw_matrix (GetChildValue data) rows cols is_row_major) ;;
        ret (Some s)))%M.

(** [internal_dict], which the function never reads, is left out. *)
Definition format_matrix (valobj : SBValue) : M (option string) :=
  if IsValid (m_data_array valobj) then fixed_sized_matrix_to_string valobj
  else if IsPointerType (m_data valobj) then dynamically_sized_matrix_to_string valobj
  else ret (GetSummary valobj).

(** ** __lldb_init_module *)

Definition double_quote : string := String (ascii_of_nat 34) "".

(** The commands handed to [debugger.HandleCommand], in order. *)
Definition __lldb_init_module : list string :=
  ["type summary add -x " ++ double_quote ++ "Eigen::Matrix" ++ double_quote
   ++ " -F LLDB_Eigen_Data_Formatter.format_matrix";
   "type summary add -x " ++ double_quote ++ "Eigen::Array" ++ double_quote
   ++ " -F LLDB_Eigen_Data_Formatter.format_matrix"].

(** ** A session to run the definitions on *)

Module Demo.

(** Six elements with the texts 1 to 6. *)
Definition buffer : children :=
  fun i =>
    if (0 <=? i) && (i <? 6) then Ok (Some (Py.str_int (i + 1)))
    else Ok None.


(** Descriptors 0, 1 and 2 open on three different files. *)
Definition world0 : world :=
  mkWorld [Some (File 0); Some (File 1); Some (File 2)] [].

(** An evaluator that answers [rows] and [cols] for the value at path
    [m], and writes on both streams while it does. *)
Definition evaluator (rows cols : Z) (expr : string) : evaluation :=
  mkEvaluation [(Stdout, "evaluating " ++ expr); (Stderr, "warning")]
               (Ok (mkResult (if String.eqb expr "m.rows()" then rows else cols))).

Definition no_data : SBData := mkData false false 0 buffer.

(** A fixed-size matrix with [n] stored elements. *)
Definition fixed (type_name : string) (n rows cols : Z) : SBValue :=
  mkValue type_name (mkData true false n buffer) no_data "m" (Some "summary")
          buffer (evaluator rows cols).

(** A dynamic matrix: the storage is a pointer, which has one child. *)
Definition dynamic (type_name : string) (rows cols : Z) (own : children) : SBValue :=
  mkValue type_name no_data (mkData true true 1 buffer) "m" (Some "summary")
          own (evaluator rows cols).

(** A value that is neither. *)
Definition other : SBValue :=
  mkValue "Eigen::Matrix<double, 2, 2, 0, 2, 2>" no_data no_data "m"
          (Some "summary") buffer (evaluator 2 2).

Definition unreachable : children := fun _ => Raise (HostError "unreachable").

End Demo.

(** ** What the grid looks like, for the statements below *)

(** The first line of the output, without the bracket that follows it. *)
Definition dimensions_line (rows cols : Z) (is_row_major : option bool) : string :=
  "rows: " ++ Py.str_int rows ++ ", cols: " ++ Py.str_int cols
  ++ ", is_row_major: " ++ Py.str_bool_or_none is_row_major ++ Py.newline.

(** One row of cells as it stands in the output: every row but the first
    is indented by one space, and every row ends in [;] and a newline. *)
Definition row_group (j : Z) (cells : list string) : string :=
  (if j =? 0 then "" else " ") ++ Py.join cells ++ ";" ++ Py.newline.

Fixpoint grid_text (j : nat) (groups : list (list string)) : string :=
  match groups with
  | [] => ""
  | g :: groups' => row_group (Z.of_nat j) g ++ grid_text (S j) groups'
  end.


(** The listed children all have a text, given by [vals]. *)
Definition readable (valobj : children) (vals : Z -> string) (idx : list Z) : Prop :=
  forall i, In i idx -> valobj i = Ok (Some (vals i)).

(** The indices of row [j], for a row that has some. *)
Definition indices_of (rows cols : Z) (is_row_major : option bool) (j : Z) : list Z :=
  match row_indices j rows cols is_row_major with
  | Ok idx => idx
  | Raise _ => []
  end.

(** The cells of row [j], each child's text justified to [padding + 1]. *)
Definition cells_of (vals : Z -> string) (rows cols : Z)
           (is_row_major : option bool) (padding j : Z) : list string :=
  map (fun i => Py.rjust (vals i) (padding + 1))
      (indices_of rows cols is_row_major j).

(** ** What the pattern matches, in words *)

(** The longest run of characters of a class at the start of a string, and
    what follows it. *)
Fixpoint span (cls : ascii -> bool) (s : string) : string * string :=
  match s with
  | String a s' =>
      if cls a then let (run, rest) := span cls s' in (String a run, rest)
      else ("", s)
  | EmptyString => ("", "")
  end.

Definition comma_free (p : string) : Prop :=
  forall a, In a (list_ascii_of_string p) -> Re.not_comma a = true.

(** A template parameter as the pattern sees it: some text without a comma. *)
Definition parameter (p : string) : Prop := p <> "" /\ comma_free p.

(** [s] starts with [Eigen::Matrix<], three parameters each followed by a
    comma and a space, then the digit [d] and a comma. *)
Definition signature_at (s d : string) : Prop :=
  exists p1 p2 p3 c rest,
    s = "Eigen::Matrix<" ++ p1 ++ ", " ++ p2 ++ ", " ++ p3 ++ ", "
        ++ String c ("," ++ rest)
    /\ parameter p1 /\ parameter p2 /\ parameter p3
    /\ Re.digit c = true /\ d = String c "".


Definition contains (needle hay : string) : Prop :=
  exists pre post, hay = pre ++ needle ++ post.

(** What the layout detector returns for a type name, its messages aside. *)
Definition storage_order_of (matrix_type : string) : option bool :=
  match Re.search template_regex matrix_type with
  | None => None
  | Some m =>
      if String.eqb (Re.group1 m) "1" then Some true
      else if String.eqb (Re.group1 m) "0" then Some false
      else None
  end.

(** ** What the block around the evaluator does, for the statements below *)

(** The standard output and the standard error are open. *)
Definition std_open (w : world) : Prop :=
  get_fd 1 (fds w) <> None /\ get_fd 2 (fds w) <> None.

(** What the two evaluations give: [rows] and [cols], or the exception of
    the first one that raises. *)
Definition evaluated_dimensions (valobj : SBValue) (path : string)
  : outcome (Z * Z) :=
  (try! r <- result (EvaluateExpression valobj (path ++ ".rows()"));
   try! c <- result (EvaluateExpression valobj (path ++ ".cols()"));
   Ok (GetValueAsSigned r, GetValueAsSigned c))%outcome.

(** What the debugger writes during them; the second one does not run when
    the first one raises. *)
Definition evaluation_noise (valobj : SBValue) (path : string)
  : list (stream * string) :=
  let rows := EvaluateExpression valobj (path ++ ".rows()") in
  match result rows with
  | Ok _ => (noise rows ++ noise (EvaluateExpression valobj (path ++ ".cols()")))%list
  | Raise _ => noise rows
  end.

(** The same texts, as they land in the null device. *)
Definition sunk (n : list (stream * string)) : list (target * string) :=
  map (fun o => (Null_device, snd o)) n.

(** The formatter's return value for a grid, or the exception of the
    renderer. *)
Definition rendered (o : outcome string) : outcome (option string) :=
  match o with
  | Ok s => Ok (Some s)
  | Raise e => Raise e
  end.

(** ** The fallback to one column, as a property of an entry function *)

(** [f], reading the storage member [data], renders [rows = element count]
    and [cols = 1] and prints the message whenever the evaluated [rows *
    cols] is not the number of children of [data]. *)
Definition falls_back (f : SBValue -> M (option string))
           (data : SBValue -> SBData) : Prop :=
  forall (valobj : SBValue) (w : world) (out : target) (rows cols : Z),
    IsValid (data valobj) = true ->
    get_fd 1 (fds w) = Some out ->
    get_fd 2 (fds w) <> None ->
    evaluated_dimensions valobj (GetExpressionPath valobj) = Ok (rows, cols) ->
    rows * cols <> GetNumChildren (data valobj) ->
    fst (f valobj w)
    = rendered (print_raw_matrix (GetChildValue (data valobj))
                  (GetNumChildren (data valobj)) 1
                  (storage_order_of (GetTypeName valobj)))
    /\ In (out, layout_error ++ Py.newline) (written (snd (f valobj w))).

(** ** Further notions for the statements below *)

(** The buffer indices the renderer reads for the grid, row after row. *)
Definition visited (rows cols : Z) (is_row_major : option bool) : list Z :=
  List.concat (map (indices_of rows cols is_row_major) (Py.range2 0 rows)).



(** What the layout detector prints for a type name. *)
Definition detector_messages (matrix_type : string) : list string :=
  match Re.search template_regex matrix_type with
  | None =>
      ["Could not determine matrix layout from type: " ++ matrix_type
       ++ Py.newline]
  | Some m =>
      if String.eqb (Re.group1 m) "1" then []
      else if String.eqb (Re.group1 m) "0" then []
      else ["Unexpected storage order value: " ++ Re.group1 m ++ Py.newline]
  end.

(** * Properties *)

(** ** Strings *)

Section Strings.


Lemma app_assoc_str (s t u : string) : (s ++ t) ++ u = s ++ (t ++ u).
Proof. induction s as [|a s IH]; simpl; [reflexivity | now rewrite IH]. Qed.

Lemma app_empty_r (s : string) : s ++ "" = s.
Proof. induction s as [|a s IH]; simpl; [reflexivity | now rewrite IH]. Qed.



Lemma rjust_wide (s : string) (width : Z) :
  width <= Py.len s -> Py.rjust s width = s.
Proof.
  unfold Py.rjust. intros H.
  replace (Z.to_nat (width - Py.len s)) with O by lia. reflexivity.
Qed.

End Strings.

(** ** Ranges *)

Section Ranges.

Lemma range_len_unit (a b : Z) : Py.range_len a b 1 = Z.max 0 (b - a).
Proof.
  unfold Py.range_len. change (0 <? 1) with true. cbv iota.
  rewrite Z.div_1_r. lia.
Qed.

Lemma range2_explicit (a b : Z) :
  Py.range2 a b = map (fun k => a + Z.of_nat k) (seq 0 (Z.to_nat (b - a))).
Proof.
  unfold Py.range2, Py.range_list. rewrite range_len_unit.
  replace (Z.to_nat (Z.max 0 (b - a))) with (Z.to_nat (b - a)) by lia.
  apply map_ext. intros k. lia.
Qed.

Lemma In_range2 (a b i : Z) : In i (Py.range2 a b) <-> a <= i < b.
Proof.
  rewrite range2_explicit, in_map_iff. split.
  - intros [k [<- Hk]]. apply in_seq in Hk. lia.
  - intros H. exists (Z.to_nat (i - a)). split; [lia|].
    apply in_seq. lia.
Qed.

(** Striding by [rows] from [r] below [rows*cols] takes [cols] steps. *)
Lemma range_len_stride (r rows cols : Z) :
  0 <= r < rows -> Py.range_len r (rows * cols) rows = Z.max 0 cols.
Proof.
  intros H. unfold Py.range_len.
  replace (0 <? rows) with true by (symmetry; apply Z.ltb_lt; lia).
  f_equal.
  symmetry. apply Z.div_unique with (r := rows - 1 - r); [left; lia | ring].
Qed.

Lemma range3_stride (r rows cols : Z) :
  0 <= r < rows ->
  Py.range3 r (rows * cols) rows
  = Ok (map (fun k => r + Z.of_nat k * rows) (seq 0 (Z.to_nat cols))).
Proof.
  intros H. unfold Py.range3.
  replace (rows =? 0) with false by (symmetry; apply Z.eqb_neq; lia).
  unfold Py.range_list. rewrite range_len_stride by assumption.
  replace (Z.to_nat (Z.max 0 cols)) with (Z.to_nat cols) by lia.
  reflexivity.
Qed.

Lemma In_stride (r rows cols i : Z) :
  0 <= r < rows ->
  In i (map (fun k => r + Z.of_nat k * rows) (seq 0 (Z.to_nat cols)))
  <-> exists k, 0 <= k /\ i = r + k * rows /\ i < rows * cols.
Proof.
  intros H. rewrite in_map_iff. split.
  - intros [k [<- Hk]]. apply in_seq in Hk.
    exists (Z.of_nat k). split; [lia|]. split; [reflexivity|].
    assert (Z.of_nat k + 1 <= cols) by lia. nia.
  - intros [k [Hk [-> Hlt]]].
    exists (Z.to_nat k). split; [rewrite Z2Nat.id by assumption; reflexivity|].
    apply in_seq. split; [lia|].
    assert (k < cols) by nia. lia.
Qed.

End Ranges.

(** ** The traversal of one row *)

Lemma option_eq_dec_true (order : option bool) :
  {order = Some true} + {order <> Some true}.
Proof. destruct order as [[|]|]; [left; reflexivity | right; discriminate ..]. Qed.

Section Traversal.

Variables rows cols : Z.

Lemma row_major_indices (r : Z) :
  row_indices r rows cols (Some true)
  = Ok (map (fun k => r * cols + Z.of_nat k) (seq 0 (Z.to_nat cols))).
Proof.
  unfold row_indices. rewrite range2_explicit.
  replace ((r + 1) * cols - r * cols) with cols by ring. reflexivity.
Qed.

Lemma strided_indices (r : Z) (order : option bool) :
  order <> Some true ->
  0 <= r < rows ->
  row_indices r rows cols order
  = Ok (map (fun k => r + Z.of_nat k * rows) (seq 0 (Z.to_nat cols))).
Proof.
  intros Ho Hr. unfold row_indices.
  destruct order as [[|]|]; try congruence; now apply range3_stride.
Qed.

Lemma In_row_major (r i : Z) :
  In i (map (fun k => r * cols + Z.of_nat k) (seq 0 (Z.to_nat cols)))
  <-> r * cols <= i < (r + 1) * cols.
Proof.
  replace (map (fun k => r * cols + Z.of_nat k) (seq 0 (Z.to_nat cols)))
    with (Py.range2 (r * cols) ((r + 1) * cols)).
  - apply In_range2.
  - rewrite range2_explicit.
    replace ((r + 1) * cols - r * cols) with cols by ring. reflexivity.
Qed.

(** Every index a row of the grid reads lies inside the buffer. *)
Lemma row_indices_in_buffer (r : Z) (order : option bool) (idx : list Z) :
  0 <= r < rows ->
  row_indices r rows cols order = Ok idx ->
  forall i, In i idx -> 0 <= i < rows * cols.
Proof.
  intros Hr Hidx i Hi.
  destruct (option_eq_dec_true order) as [-> | Ho].
  - rewrite row_major_indices in Hidx. injection Hidx as <-.
    apply In_row_major in Hi. nia.
  - rewrite strided_indices in Hidx by assumption. injection Hidx as <-.
    apply In_stride in Hi; [|assumption].
    destruct Hi as [k [Hk [-> Hlt]]]. nia.
Qed.

Lemma row_indices_length (r : Z) (order : option bool) (idx : list Z) :
  0 <= r < rows ->
  row_indices r rows cols order = Ok idx ->
  List.length idx = Z.to_nat cols.
Proof.
  intros Hr Hidx.
  destruct (option_eq_dec_true order) as [-> | Ho].
  - rewrite row_major_indices in Hidx. injection Hidx as <-.
    now rewrite length_map, length_seq.
  - rewrite strided_indices in Hidx by assumption. injection Hidx as <-.
    now rewrite length_map, length_seq.
Qed.

End Traversal.

(** ** The renderer's loops *)

Section Renderer.

Variable valobj : children.
Variable vals : Z -> string.





Lemma justify_readable (idx : list Z) (padding : Z) :
  readable valobj vals idx ->
  justify (map valobj idx) padding
  = Ok (map (fun i => Py.rjust (vals i) (padding + 1)) idx).
Proof.
  induction idx as [|i idx IH]; intros H; simpl.
  - reflexivity.
  - rewrite (H i) by (left; reflexivity). simpl.
    rewrite IH; [reflexivity|]. intros k Hk. apply H. now right.
Qed.

Variables rows cols : Z.
Variable is_row_major : option bool.

Lemma row_indices_defined (j : Z) :
  0 <= j < rows ->
  row_indices j rows cols is_row_major = Ok (indices_of rows cols is_row_major j).
Proof.
  intros Hj. unfold indices_of.
  destruct (option_eq_dec_true is_row_major) as [-> | Ho].
  - now rewrite row_major_indices.
  - now rewrite strided_indices.
Qed.

Lemma rows_loop_step (j : Z) (output tail : string) :
  (if negb (j =? 0) then output ++ " " else output) ++ tail
  = output ++ (if j =? 0 then "" else " ") ++ tail.
Proof.
  destruct (j =? 0); simpl; [reflexivity | apply app_assoc_str].
Qed.

Lemma rows_loop_grid (padding : Z) (n s : nat) (output : string) :
  Z.of_nat (s + n) <= rows ->
  readable valobj vals (Py.range2 0 (rows * cols)) ->
  rows_loop valobj (map Z.of_nat (seq s n)) rows cols is_row_major padding output
  = Ok (output
        ++ grid_text s (map (cells_of vals rows cols is_row_major padding)
                            (map Z.of_nat (seq s n)))).
Proof.
  revert s output. induction n as [|n IH]; intros s output Hs Hr; simpl.
  - now rewrite app_empty_r.
  - assert (Hj : 0 <= Z.of_nat s < rows) by lia.
    unfold _row_element. rewrite (row_indices_defined _ Hj). simpl.
    rewrite justify_readable.
    + simpl. rewrite IH by (assumption || lia).
      f_equal. rewrite rows_loop_step, app_assoc_str.
      reflexivity.
    + intros i Hi. apply Hr. apply In_range2.
      replace (rows * cols - 0) with (rows * cols) by ring.
      eapply row_indices_in_buffer; [exact Hj | apply row_indices_defined, Hj | exact Hi].
Qed.

(** Whatever the loop returns starts with what it was given. *)
Lemma rows_loop_extends (padding : Z) (js : list Z) (output out : string) :
  rows_loop valobj js rows cols is_row_major padding output = Ok out ->
  exists rest, out = output ++ rest.
Proof.
  revert output. induction js as [|j js IH]; intros output H; simpl in H.
  - injection H as <-. exists "". now rewrite app_empty_r.
  - destruct (_row_element valobj j rows cols is_row_major) as [ys|e];
      simpl in H; [|discriminate].
    destruct (justify ys padding) as [cells|e]; simpl in H; [|discriminate].
    apply IH in H. destruct H as [rest ->].
    rewrite rows_loop_step, !app_assoc_str. eauto.
Qed.

End Renderer.

Lemma header_split (rows cols : Z) (order : option bool) :
  header rows cols order = dimensions_line rows cols order ++ "[".
Proof.
  unfold header, dimensions_line. now rewrite !app_assoc_str.
Qed.

(** ** The grid renderer *)

(** C2.  Row [r] of the grid is read from the buffer at the indices
    [r*cols, r*cols+1, ..., (r+1)*cols-1] when the matrix is row-major, and
    at [r, r+rows, r+2*rows, ...] below [rows*cols] when it is column-major;
    the buffer 1,2,3,4 with two rows and two columns gives the rows (1,2)
    and (3,4) in the first case and (1,3) and (2,4) in the second. *)
Theorem row_element_traversal (valobj : children) (rows cols r : Z) :
  0 <= r < rows ->
  (let idx := map (fun k => r * cols + Z.of_nat k) (seq 0 (Z.to_nat cols)) in
   _row_element valobj r rows cols (Some true) = Ok (map valobj idx)
   /\ forall i, In i idx <-> r * cols <= i < (r + 1) * cols)
  /\ (let idx := map (fun k => r + Z.of_nat k * rows) (seq 0 (Z.to_nat cols)) in
      _row_element valobj r rows cols (Some false) = Ok (map valobj idx)
      /\ forall i, In i idx <->
                   exists k, 0 <= k /\ i = r + k * rows /\ i < rows * cols)
  /\ (_row_element Demo.buffer 0 2 2 (Some true) = Ok [Ok (Some "1"); Ok (Some "2")]
      /\ _row_element Demo.buffer 1 2 2 (Some true) = Ok [Ok (Some "3"); Ok (Some "4")]
      /\ _row_element Demo.buffer 0 2 2 (Some false) = Ok [Ok (Some "1"); Ok (Some "3")]
      /\ _row_element Demo.buffer 1 2 2 (Some false) = Ok [Ok (Some "2"); Ok (Some "4")])
  /\ (print_raw_matrix Demo.buffer 2 2 (Some true)
      = Ok ("rows: 2, cols: 2, is_row_major: True" ++ Py.newline
            ++ "[ 1 2;" ++ Py.newline
            ++ "  3 4;" ++ Py.newline
            ++ " ]" ++ Py.newline)
      /\ print_raw_matrix Demo.buffer 2 2 (Some false)
         = Ok ("rows: 2, cols: 2, is_row_major: False" ++ Py.newline
               ++ "[ 1 3;" ++ Py.newline
               ++ "  2 4;" ++ Py.newline
               ++ " ]" ++ Py.newline)).
Proof.
  intros Hr. split; [|split; [|split]].
  - cbv zeta. split.
    + unfold _row_element. now rewrite row_major_indices.
    + intros i. apply In_row_major.
  - cbv zeta. split.
    + unfold _row_element. rewrite strided_indices; [reflexivity | discriminate | exact Hr].
    + intros i. now apply In_stride.
  - repeat split; reflexivity.
  - split; reflexivity.
Qed.

Lemma row_element_traversal_witness :
  _row_element Demo.buffer 1 2 2 (Some false)
  = Ok (map Demo.buffer [1 + 0 * 2; 1 + 1 * 2]).
Proof.
  destruct (row_element_traversal Demo.buffer 2 2 1) as [_ [[H _] _]].
  - lia.
  - exact H.
Defined.



(** C4.  With more than 100 elements the renderer returns the marker
    "[matrix too large]" and nothing else; with 100 or fewer it never
    returns the marker. *)
Theorem too_large_guard (valobj : children) (rows cols : Z) (order : option bool) :
  (100 < rows * cols ->
   print_raw_matrix valobj rows cols order = Ok "[matrix too large]")
  /\ (rows * cols <= 100 ->
      print_raw_matrix valobj rows cols order <> Ok "[matrix too large]").
Proof.
  unfold print_raw_matrix. split; intros H.
  - replace (100 <? rows * cols) with true by (symmetry; apply Z.ltb_lt; lia).
    reflexivity.
  - replace (100 <? rows * cols) with false by (symmetry; apply Z.ltb_ge; lia).
    destruct (padding_loop valobj (Py.range2 0 (rows * cols)) 1) as [p|e];
      cbn [obind]; [|discriminate].
    destruct (rows_loop valobj (Py.range2 0 rows) rows cols order p
                        ("" ++ header rows cols order)) as [out|e] eqn:E;
      cbn [obind]; [|discriminate].
    apply rows_loop_extends in E. destruct E as [rest ->].
    unfold header. simpl. discriminate.
Qed.

Lemma too_large_guard_witness :
  print_raw_matrix Demo.buffer 11 10 None = Ok "[matrix too large]"
  /\ print_raw_matrix Demo.buffer 2 2 None <> Ok "[matrix too large]".
Proof.
  split.
  - apply (too_large_guard Demo.buffer 11 10 None). lia.
  - apply (too_large_guard Demo.buffer 2 2 None). lia.
Defined.

(** ** The pattern *)

Section Pattern.

Lemma app_cons_inv (a : ascii) (s pre suf : string) :
  String a s = pre ++ suf ->
  (pre = "" /\ suf = String a s)
  \/ exists pre', pre = String a pre' /\ s = pre' ++ suf.
Proof.
  destruct pre as [|b pre]; simpl; intros H.
  - left. split; [reflexivity | now symmetry].
  - right. injection H as -> ->. eauto.
Qed.

Lemma span_app (cls : ascii -> bool) (s : string) :
  fst (span cls s) ++ snd (span cls s) = s.
Proof.
  induction s as [|a s IH]; simpl; [reflexivity|].
  destruct (cls a); [|reflexivity].
  destruct (span cls s) as [run rest]. simpl in *. now rewrite IH.
Qed.

Lemma span_all (cls : ascii -> bool) (s : string) (a : ascii) :
  In a (list_ascii_of_string (fst (span cls s))) -> cls a = true.
Proof.
  induction s as [|b s IH]; simpl; [contradiction|].
  destruct (cls b) eqn:E; [|contradiction].
  destruct (span cls s) as [run rest]. simpl in *.
  intros [<- | H]; [exact E | now apply IH].
Qed.

Lemma span_stop (cls : ascii -> bool) (p : string) (c : ascii) (rest : string) :
  (forall a, In a (list_ascii_of_string p) -> cls a = true) ->
  cls c = false ->
  span cls (p ++ String c rest) = (p, String c rest).
Proof.
  intros Hp Hc. induction p as [|a p IH]; simpl.
  - now rewrite Hc.
  - rewrite (Hp a) by (left; reflexivity).
    rewrite IH; [reflexivity|]. intros b Hb. apply Hp. now right.
Qed.

(** Where the rest of the pattern cannot start with a character of the
    class, backtracking into the run never helps: the run is the whole
    span. *)
Lemma plus_span (cls : ascii -> bool) (p : list Re.item) (s : string) :
  (forall a s', cls a = true -> Re.match_here p (String a s') = None) ->
  Re.match_here (Re.Plus cls :: p) s
  = match fst (span cls s) with
    | EmptyString => None
    | _ => Re.match_here p (snd (span cls s))
    end.
Proof.
  intros Hsep. induction s as [|a s IH]; [reflexivity|].
  change (Re.match_here (Re.Plus cls :: p) (String a s))
    with (if cls a
          then match Re.match_here (Re.Plus cls :: p) s with
               | Some gs => Some gs
               | None => Re.match_here p s
               end
          else None).
  simpl span. destruct (cls a) eqn:Ea; [|reflexivity].
  rewrite IH. clear IH.
  destruct s as [|b s]; [reflexivity|].
  simpl span. destruct (cls b) eqn:Eb.
  - destruct (span cls s) as [run rest]. simpl.
    destruct (Re.match_here p rest); [reflexivity|]. now apply Hsep.
  - reflexivity.
Qed.

Lemma match_lit (l : string) (p : list Re.item) (s : string) (gs : list string) :
  Re.match_here (Re.lit l ++ p)%list s = Some gs
  <-> exists rest, s = l ++ rest /\ Re.match_here p rest = Some gs.
Proof.
  revert s. induction l as [|c l IH]; intros s.
  - simpl. split; [eauto | now intros [rest [-> H]]].
  - change (Re.lit (String c l) ++ p)%list
      with (Re.Chr c :: (Re.lit l ++ p))%list.
    destruct s as [|a s]; simpl.
    + split; [discriminate | intros [rest [H _]]; discriminate].
    + destruct (Ascii.eqb_spec a c) as [-> | Hne].
      * rewrite IH. split; intros [rest [H1 H2]]; exists rest;
          (split; [congruence | exact H2]).
      * split; [discriminate | intros [rest [H _]]; congruence].
Qed.

Lemma match_parameter (q : list Re.item) (s : string) (gs : list string) :
  Re.match_here (Re.Plus Re.not_comma :: Re.lit ", " ++ q)%list s = Some gs
  <-> exists p rest,
      s = p ++ ", " ++ rest /\ parameter p /\ Re.match_here q rest = Some gs.
Proof.
  rewrite plus_span.
  2:{ intros a s' Ha. simpl. unfold Re.not_comma in Ha.
      destruct (Ascii.eqb a ","); [discriminate | reflexivity]. }
  pose proof (span_app Re.not_comma s) as Happ.
  pose proof (span_all Re.not_comma s) as Hall.
  split.
  - destruct (span Re.not_comma s) as [run rest0]. cbn [fst snd] in *.
    destruct run as [|a run]; [discriminate|].
    intros H. apply match_lit in H. destruct H as [rest [-> H]].
    exists (String a run), rest. split; [now symmetry|].
    split; [|exact H]. split; [discriminate | exact Hall].
  - intros [p [rest [-> [[Hne Hfree] H]]]].
    change (p ++ ", " ++ rest) with (p ++ String "," (String " " rest)).
    rewrite span_stop by (exact Hfree || reflexivity). simpl fst. simpl snd.
    destruct p as [|a p]; [congruence|].
    apply match_lit. exists rest. split; [reflexivity | exact H].
Qed.

Lemma match_digit (s : string) (gs : list string) :
  Re.match_here (Re.Group Re.digit :: Re.lit ",")%list s = Some gs
  <-> exists c rest,
      s = String c ("," ++ rest) /\ Re.digit c = true /\ gs = [String c ""].
Proof.
  destruct s as [|c s]; simpl.
  - split; [discriminate | intros [c [rest [H _]]]; discriminate].
  - destruct (Re.digit c) eqn:Ed.
    + destruct s as [|b s].
      * split; [discriminate | intros [c' [rest [H _]]]; discriminate].
      * destruct (Ascii.eqb_spec b ",") as [-> | Hne].
        -- split.
           ++ intros H. injection H as <-. exists c, s. auto.
           ++ intros [c' [rest [H [_ ->]]]]. injection H as -> _. reflexivity.
        -- split; [discriminate|].
           intros [c' [rest [H _]]]. simpl in H. congruence.
    + split; [discriminate|].
      intros [c' [rest [H [Hd _]]]]. injection H as -> _. congruence.
Qed.

(** The pattern matches at the start of [s] exactly when a signature
    stands there, and the group is its digit. *)
Lemma match_template (s : string) (gs : list string) :
  Re.match_here template_regex s = Some gs
  <-> exists d, signature_at s d /\ gs = [d].
Proof.
  unfold template_regex, signature_at.
  rewrite match_lit. split.
  - intros [r0 [-> H]].
    apply match_parameter in H. destruct H as [p1 [r1 [-> [H1 H]]]].
    apply match_parameter in H. destruct H as [p2 [r2 [-> [H2 H]]]].
    apply match_parameter in H. destruct H as [p3 [r3 [-> [H3 H]]]].
    apply match_digit in H. destruct H as [c [rest [-> [Hd ->]]]].
    exists (String c ""). split; [|reflexivity].
    exists p1, p2, p3, c, rest. auto 10.
  - intros [d [[p1 [p2 [p3 [c [rest [-> [H1 [H2 [H3 [Hd ->]]]]]]]]]] ->]].
    eexists. split; [reflexivity|].
    apply match_parameter. exists p1. eexists. split; [reflexivity|]. split; [exact H1|].
    apply match_parameter. exists p2. eexists. split; [reflexivity|]. split; [exact H2|].
    apply match_parameter. exists p3. eexists. split; [reflexivity|]. split; [exact H3|].
    apply match_digit. exists c, rest. auto.
Qed.

Lemma search_unfold (p : list Re.item) (s : string) :
  Re.search p s
  = match Re.match_here p s with
    | Some gs => Some gs
    | None => match s with
              | String _ s' => Re.search p s'
              | EmptyString => None
              end
    end.
Proof. destruct s; reflexivity. Qed.

Lemma search_none (p : list Re.item) (s : string) :
  Re.search p s = None
  <-> forall pre suf, s = pre ++ suf -> Re.match_here p suf = None.
Proof.
  induction s as [|a s IH]; rewrite search_unfold.
  - split.
    + intros H pre suf E. destruct pre; [|discriminate]. simpl in E. subst suf.
      destruct (Re.match_here p ""); [discriminate | reflexivity].
    + intros H. now rewrite (H "" "" eq_refl).
  - split.
    + intros H pre suf E.
      destruct (Re.match_here p (String a s)) eqn:Em; [discriminate|].
      apply app_cons_inv in E. destruct E as [[-> ->] | [pre' [-> E]]].
      * exact Em.
      * apply (proj1 IH H pre' suf E).
    + intros H. rewrite (H "" (String a s) eq_refl).
      apply IH. intros pre suf E. apply (H (String a pre) suf).
      simpl. now rewrite E.
Qed.




(** Without the literal prefix the pattern matches nowhere. *)
Lemma search_needs_prefix (name : string) :
  ~ contains "Eigen::Matrix<" name ->
  Re.search template_regex name = None.
Proof.
  intros Hno. apply search_none. intros pre suf E.
  destruct (Re.match_here template_regex suf) as [gs|] eqn:Em; [|reflexivity].
  unfold template_regex in Em. apply match_lit in Em.
  destruct Em as [rest [-> _]].
  exfalso. apply Hno. exists pre, rest. exact E.
Qed.

End Pattern.

(** ** The layout detector *)

Lemma extract_is_row_major_value (valobj : SBValue) (w : world) :
  fst (extract_is_row_major valobj w) = Ok (storage_order_of (GetTypeName valobj)).
Proof.
  unfold extract_is_row_major, storage_order_of.
  destruct (Re.search template_regex (GetTypeName valobj)) as [m|]; [|reflexivity].
  destruct (String.eqb (Re.group1 m) "1"); [reflexivity|].
  destruct (String.eqb (Re.group1 m) "0"); reflexivity.
Qed.


(** The detector on some type names. *)
Example storage_order_examples :
  storage_order_of "Eigen::Matrix<double, 3, 3, 0, 3, 3>" = Some false
  /\ storage_order_of "const Eigen::Matrix<float, -1, -1, 1, -1, -1> &" = Some true
  /\ storage_order_of "Eigen::Matrix<double, 3, 3, 7, 3, 3>" = None
  /\ storage_order_of "Eigen::Matrix<double, 3, 3, 10, 3, 3>" = None
  /\ storage_order_of "Eigen::Matrix<double, 3, 3, 1>" = None
  /\ storage_order_of "Eigen::Array<double, 3, 3, 1, 3, 3>" = None.
Proof. repeat split; reflexivity. Qed.


(** ** Descriptors *)

Section Descriptors.

Lemma get_set_same (fd : nat) (x : option target) (t : fd_table) :
  get_fd fd (set_fd fd x t) = x.
Proof.
  unfold get_fd. revert t. induction fd as [|fd IH]; intros [|y t]; simpl;
    try (destruct x; reflexivity); apply IH.
Qed.

Lemma get_nil (fd : nat) : get_fd fd [] = None.
Proof. unfold get_fd. destruct fd; reflexivity. Qed.

Lemma get_set_other (fd fd' : nat) (x : option target) (t : fd_table) :
  fd <> fd' -> get_fd fd' (set_fd fd x t) = get_fd fd' t.
Proof.
  revert fd' t. induction fd as [|fd IH]; intros [|fd'] [|y t] H;
    try congruence; try reflexivity.
  - unfold get_fd. simpl. destruct fd'; reflexivity.
  - change (get_fd (S fd') (None :: set_fd fd x []) = get_fd (S fd') []).
    rewrite get_nil. change (get_fd fd' (set_fd fd x []) = None).
    rewrite IH by congruence. apply get_nil.
  - change (get_fd fd' (set_fd fd x t) = get_fd fd' t).
    apply IH. congruence.
Qed.

Lemma lowest_free_closed (t : fd_table) : get_fd (lowest_free t) t = None.
Proof.
  induction t as [|[x|] t IH]; try reflexivity. exact IH.
Qed.

Lemma lowest_free_fresh (t : fd_table) (fd : nat) (x : target) :
  get_fd fd t = Some x -> lowest_free t <> fd.
Proof.
  intros H E. rewrite <- E, lowest_free_closed in H. discriminate.
Qed.


Lemma emit_app (n m : list (stream * string)) (w : world) :
  emit (n ++ m) w = emit m (emit n w).
Proof. unfold emit. apply fold_left_app. Qed.

(** With both standard descriptors on the null device, everything the
    debugger writes lands there. *)
Lemma emit_sunk (n : list (stream * string)) (w : world) :
  get_fd 1 (fds w) = Some Null_device ->
  get_fd 2 (fds w) = Some Null_device ->
  emit n w = mkWorld (fds w) (written w ++ sunk n).
Proof.
  revert w. induction n as [|[s text] n IH]; intros w H1 H2; simpl.
  - rewrite app_nil_r. destruct w; reflexivity.
  - assert (E : write (fileno s) text w
                = mkWorld (fds w) (written w ++ [(Null_device, text)])).
    { unfold write. destruct s; simpl fileno; [rewrite H1 | rewrite H2]; reflexivity. }
    rewrite E, IH by assumption. simpl. now rewrite <- app_assoc.
Qed.

Lemma bind_ok {A B} (m : M A) (k : A -> M B) (w w' : world) (a : A) :
  m w = (Ok a, w') -> bind m k w = k a w'.
Proof. unfold bind. now intros ->. Qed.

Lemma bind_raise {A B} (m : M A) (k : A -> M B) (w w' : world) (e : exn) :
  m w = (Raise e, w') -> bind m k w = (Raise e, w').
Proof. unfold bind. now intros ->. Qed.

Lemma dup_run (fd : nat) (w : world) (x : target) :
  get_fd fd (fds w) = Some x ->
  dup fd w
  = (Ok (lowest_free (fds w)),
     mkWorld (set_fd (lowest_free (fds w)) (Some x) (fds w)) (written w)).
Proof. unfold dup. now intros ->. Qed.

Lemma dup2_run (fd fd2 : nat) (w : world) (x : target) :
  get_fd fd (fds w) = Some x ->
  dup2 fd fd2 w = (Ok tt, mkWorld (set_fd fd2 (Some x) (fds w)) (written w)).
Proof. unfold dup2. now intros ->. Qed.

Lemma close_run (fd : nat) (w : world) (x : target) :
  get_fd fd (fds w) = Some x ->
  close fd w = (Ok tt, mkWorld (set_fd fd None (fds w)) (written w)).
Proof. unfold close. now intros ->. Qed.

End Descriptors.

(** ** The block that silences the evaluator *)

Section Suppression.

Context {A : Type}.
Variable body : M A.
Variable r : outcome A.
Variable n : list (stream * string).

(** The body behaves like the evaluator: it writes on the standard
    streams and returns or raises, and does nothing else. *)
Hypothesis body_writes : forall w, body w = (r, emit n w).

Variable w : world.
Variables out err : target.
Hypothesis Hout : get_fd 1 (fds w) = Some out.
Hypothesis Herr : get_fd 2 (fds w) = Some err.

Lemma with_suppress_run :
  exists (s0 s1 : nat) (w' : world),
    with_suppress body w = (r, w')
    /\ written w' = (written w ++ sunk n)%list
    /\ s0 <> s1
    /\ get_fd s0 (fds w) = None
    /\ get_fd s1 (fds w) = None
    /\ forall fd,
        get_fd fd (fds w')
        = if Nat.eqb fd s0 then Some out
          else if Nat.eqb fd s1 then Some err
          else get_fd fd (fds w).
Proof.
  set (n0 := lowest_free (fds w)).
  set (ta := set_fd n0 (Some Null_device) (fds w)).
  set (n1 := lowest_free ta).
  set (tb := set_fd n1 (Some Null_device) ta).
  set (s0 := lowest_free tb).
  set (tc := set_fd s0 (Some out) tb).
  set (s1 := lowest_free tc).
  set (td := set_fd s1 (Some err) tc).
  assert (Hn0 : get_fd n0 (fds w) = None) by apply lowest_free_closed.
  assert (n0 <> 1%nat) by (eapply lowest_free_fresh; eassumption).
  assert (n0 <> 2%nat) by (eapply lowest_free_fresh; eassumption).
  assert (Ha1 : get_fd 1 ta = Some out)
    by (unfold ta; rewrite get_set_other; assumption).
  assert (Ha2 : get_fd 2 ta = Some err)
    by (unfold ta; rewrite get_set_other; assumption).
  assert (Ha0 : get_fd n0 ta = Some Null_device) by apply get_set_same.
  assert (n1 <> 1%nat) by (eapply lowest_free_fresh; eassumption).
  assert (n1 <> 2%nat) by (eapply lowest_free_fresh; eassumption).
  assert (n1 <> n0) by (eapply lowest_free_fresh; eassumption).
  assert (Hb1 : get_fd 1 tb = Some out)
    by (unfold tb; rewrite get_set_other; assumption).
  assert (Hb2 : get_fd 2 tb = Some err)
    by (unfold tb; rewrite get_set_other; assumption).
  assert (Hb0 : get_fd n0 tb = Some Null_device)
    by (unfold tb; rewrite get_set_other; assumption).
  assert (Hbn : get_fd n1 tb = Some Null_device) by apply get_set_same.
  assert (s0 <> 1%nat) by (eapply lowest_free_fresh; eassumption).
  assert (s0 <> 2%nat) by (eapply lowest_free_fresh; eassumption).
  assert (s0 <> n0) by (eapply lowest_free_fresh; eassumption).
  assert (s0 <> n1) by (eapply lowest_free_fresh; eassumption).
  assert (Hc1 : get_fd 1 tc = Some out)
    by (unfold tc; rewrite get_set_other; assumption).
  assert (Hc2 : get_fd 2 tc = Some err)
    by (unfold tc; rewrite get_set_other; assumption).
  assert (Hc0 : get_fd n0 tc = Some Null_device)
    by (unfold tc; rewrite get_set_other; assumption).
  assert (Hcn : get_fd n1 tc = Some Null_device)
    by (unfold tc; rewrite get_set_other; assumption).
  assert (Hcs : get_fd s0 tc = Some out) by apply get_set_same.
  assert (s1 <> 1%nat) by (eapply lowest_free_fresh; eassumption).
  assert (s1 <> 2%nat) by (eapply lowest_free_fresh; eassumption).
  assert (s1 <> n0) by (eapply lowest_free_fresh; eassumption).
  assert (s1 <> n1) by (eapply lowest_free_fresh; eassumption).
  assert (s1 <> s0) by (eapply lowest_free_fresh; eassumption).
  pose (final :=
          set_fd n1 None
            (set_fd n0 None
               (set_fd 2 (Some err)
                  (set_fd 1 (Some out)
                     (set_fd 2 (Some Null_device)
                        (set_fd 1 (Some Null_device) td)))))).
  exists s0, s1, (mkWorld final (written w ++ sunk n)).
  split; [|split; [reflexivity | split; [congruence|]]].
  - assert (Hin : suppress_init w
                  = (Ok (mkSuppress [n0; n1] (s0, s1)), mkWorld td (written w))).
    { unfold suppress_init.
      erewrite bind_ok by reflexivity. cbv beta.
      erewrite bind_ok by reflexivity. cbv beta.
      erewrite bind_ok by (apply dup_run; exact Hb1). cbv beta.
      erewrite bind_ok by (apply dup_run; exact Hc2). reflexivity. }
    set (te := set_fd 1 (Some Null_device) td).
    set (tf := set_fd 2 (Some Null_device) te).
    assert (Hen : suppress_enter (mkSuppress [n0; n1] (s0, s1)) (mkWorld td (written w))
                  = (Ok tt, mkWorld tf (written w))).
    { unfold suppress_enter.
      erewrite bind_ok by reflexivity. cbv beta.
      erewrite bind_ok
        by (apply dup2_run with (x := Null_device); cbn [fds]; unfold td;
            rewrite get_set_other by assumption; exact Hc0).
      cbv beta.
      erewrite bind_ok by reflexivity. cbv beta.
      erewrite dup2_run with (x := Null_device); [reflexivity|].
      cbn [fds]. unfold td.
      rewrite !get_set_other by congruence. exact Hcn. }
    set (wf := mkWorld tf (written w)).
    assert (Hf1 : get_fd 1 (fds wf) = Some Null_device).
    { cbn [fds wf]. unfold tf. rewrite get_set_other by congruence.
      apply get_set_same. }
    assert (Hf2 : get_fd 2 (fds wf) = Some Null_device)
      by apply get_set_same.
    assert (Hbody : body wf = (r, mkWorld tf (written w ++ sunk n))).
    { rewrite body_writes. now rewrite emit_sunk. }
    assert (Hex : suppress_exit (mkSuppress [n0; n1] (s0, s1))
                                (mkWorld tf (written w ++ sunk n))
                  = (Ok tt, mkWorld final (written w ++ sunk n))).
    { unfold suppress_exit. cbn [save_fds null_fds fst snd].
      erewrite bind_ok
        by (apply dup2_run with (x := out); cbn [fds]; unfold tf, te, td;
            rewrite !get_set_other by congruence; apply get_set_same).
      cbv beta.
      erewrite bind_ok
        by (apply dup2_run with (x := err); cbn [fds]; unfold tf, te;
            rewrite !get_set_other by congruence; apply get_set_same).
      cbv beta.
      erewrite bind_ok by reflexivity. cbv beta.
      erewrite bind_ok
        by (apply close_run with (x := Null_device); cbn [fds];
            unfold tf, te, td; rewrite !get_set_other by congruence; exact Hc0).
      cbv beta.
      erewrite bind_ok by reflexivity. cbv beta.
      erewrite close_run with (x := Null_device); [reflexivity|].
      cbn [fds]. unfold tf, te, td.
      rewrite !get_set_other by congruence. exact Hcn. }
    unfold with_suppress.
    erewrite bind_ok by exact Hin. cbv beta.
    erewrite bind_ok by exact Hen. cbv beta.
    fold wf. rewrite Hbody, Hex. reflexivity.
  - split; [|split].
    + unfold s0. replace (get_fd (lowest_free tb) (fds w))
        with (get_fd (lowest_free tb) tb); [apply lowest_free_closed|].
      fold s0. unfold tb, ta. now rewrite !get_set_other by congruence.
    + unfold s1. replace (get_fd (lowest_free tc) (fds w))
        with (get_fd (lowest_free tc) tc); [apply lowest_free_closed|].
      fold s1. unfold tc, tb, ta. now rewrite !get_set_other by congruence.
    + intros fd. cbn [fds]. unfold final, td, tc, tb, ta.
      destruct (Nat.eqb_spec fd s0) as [-> | Es0].
      { rewrite !get_set_other by congruence. apply get_set_same. }
      destruct (Nat.eqb_spec fd s1) as [-> | Es1].
      { rewrite !get_set_other by congruence. apply get_set_same. }
      destruct (Nat.eq_dec fd n1) as [-> | En1].
      { rewrite get_set_same. symmetry.
        change (get_fd n1 (fds w) = None).
        replace (get_fd n1 (fds w)) with (get_fd n1 ta);
          [apply lowest_free_closed|].
        unfold ta. now rewrite get_set_other by congruence. }
      rewrite get_set_other by congruence.
      destruct (Nat.eq_dec fd n0) as [-> | En0].
      { rewrite get_set_same. now symmetry. }
      rewrite get_set_other by congruence.
      destruct (Nat.eq_dec fd 2) as [-> | E2].
      { rewrite get_set_same. now symmetry. }
      rewrite get_set_other by congruence.
      destruct (Nat.eq_dec fd 1) as [-> | E1].
      { rewrite get_set_same. now symmetry. }
      now rewrite !get_set_other by congruence.
Qed.

End Suppression.

(** ** The two entry functions, step by step *)

Section Steps.

Variable valobj : SBValue.

Lemma write_fds (fd : nat) (text : string) (w : world) :
  fds (write fd text w) = fds w.
Proof. unfold write. destruct (get_fd fd (fds w)); reflexivity. Qed.

Lemma extract_is_row_major_run (w : world) :
  extract_is_row_major valobj w
  = (Ok (storage_order_of (GetTypeName valobj)),
     snd (extract_is_row_major valobj w)).
Proof.
  rewrite <- (extract_is_row_major_value valobj w). apply surjective_pairing.
Qed.

Lemma rows_and_cols_run (path : string) (w : world) (out err : target) :
  get_fd 1 (fds w) = Some out ->
  get_fd 2 (fds w) = Some err ->
  exists (s0 s1 : nat) (w' : world),
    rows_and_cols valobj path w = (evaluated_dimensions valobj path, w')
    /\ written w' = (written w ++ sunk (evaluation_noise valobj path))%list
    /\ s0 <> s1
    /\ get_fd s0 (fds w) = None
    /\ get_fd s1 (fds w) = None
    /\ forall fd,
        get_fd fd (fds w')
        = if Nat.eqb fd s0 then Some out
          else if Nat.eqb fd s1 then Some err
          else get_fd fd (fds w).
Proof.
  intros Hout Herr. unfold rows_and_cols.
  apply with_suppress_run; [|assumption|assumption].
  intros w0. unfold bind, evaluate_expression, ret,
               evaluated_dimensions, evaluation_noise.
  destruct (result (EvaluateExpression valobj (path ++ ".rows()"))) as [r|e];
    [|reflexivity].
  rewrite emit_app.
  destruct (result (EvaluateExpression valobj (path ++ ".cols()"))) as [c|e];
    reflexivity.
Qed.

(** After the block the standard descriptors are what they were. *)
Lemma rows_and_cols_restores (path : string) (w : world) (out err : target) :
  get_fd 1 (fds w) = Some out ->
  get_fd 2 (fds w) = Some err ->
  exists w',
    rows_and_cols valobj path w = (evaluated_dimensions valobj path, w')
    /\ written w' = (written w ++ sunk (evaluation_noise valobj path))%list
    /\ get_fd 1 (fds w') = Some out
    /\ get_fd 2 (fds w') = Some err.
Proof.
  intros Hout Herr.
  destruct (rows_and_cols_run path w out err Hout Herr)
    as [s0 [s1 [w' [Hrun [Hw [_ [H0 [H1 Hfd]]]]]]]].
  exists w'. split; [exact Hrun|]. split; [exact Hw|].
  rewrite !Hfd.
  destruct (Nat.eqb_spec 1 s0) as [<- | _]; [congruence|].
  destruct (Nat.eqb_spec 1 s1) as [<- | _]; [congruence|].
  destruct (Nat.eqb_spec 2 s0) as [<- | _]; [congruence|].
  destruct (Nat.eqb_spec 2 s1) as [<- | _]; [congruence|].
  split; assumption.
Qed.

Lemma fixed_steps (w w1 : world) (rows cols : Z) :
  IsValid (m_data_array valobj) = true ->
  rows_and_cols valobj (GetExpressionPath valobj) w = (Ok (rows, cols), w1) ->
  let data := m_data_array valobj in
  let mismatch := negb (rows * cols =? GetNumChildren data) in
  fixed_sized_matrix_to_string valobj w
  = (rendered (print_raw_matrix (GetChildValue data)
                 (if mismatch then GetNumChildren data else rows)
                 (if mismatch then 1 else cols)
                 (storage_order_of (GetTypeName valobj))),
     snd (extract_is_row_major valobj
            (if mismatch then write 1 (layout_error ++ Py.newline) w1 else w1))).
Proof.
  intros Hvalid Hrun. cbv zeta. unfold fixed_sized_matrix_to_string.
  rewrite Hvalid. cbn [negb].
  erewrite bind_ok by exact Hrun. cbv beta iota.
  destruct (negb (rows * cols =? GetNumChildren (m_data_array valobj))).
  - erewrite bind_ok by (unfold bind, print1, ret; reflexivity). cbv beta iota.
    erewrite bind_ok by apply extract_is_row_major_run. cbv beta.
    unfold bind, lift, ret, rendered.
    destruct (print_raw_matrix _ _ _ _); reflexivity.
  - erewrite bind_ok by reflexivity. cbv beta iota.
    erewrite bind_ok by apply extract_is_row_major_run. cbv beta.
    unfold bind, lift, ret, rendered.
    destruct (print_raw_matrix _ _ _ _); reflexivity.
Qed.

Lemma fixed_raises (w w1 : world) (e : exn) :
  IsValid (m_data_array valobj) = true ->
  rows_and_cols valobj (GetExpressionPath valobj) w = (Raise e, w1) ->
  fixed_sized_matrix_to_string valobj w = (Raise e, w1).
Proof.
  intros Hvalid Hrun. unfold fixed_sized_matrix_to_string.
  rewrite Hvalid. cbn [negb]. now erewrite bind_raise by exact Hrun.
Qed.

Lemma dynamic_steps (w w1 : world) (rows cols : Z) :
  IsValid (m_data valobj) = true ->
  rows_and_cols valobj (GetExpressionPath valobj) w = (Ok (rows, cols), w1) ->
  dynamically_sized_matrix_to_string valobj w
  = match GetOwnChildValue valobj (rows * cols) with
    | Raise _ => (Ok (Some uninitialized), w1)
    | Ok _ =>
        (rendered (print_raw_matrix (GetChildValue (m_data valobj)) rows cols
                     (storage_order_of (GetTypeName valobj))),
         snd (extract_is_row_major valobj w1))
    end.
Proof.
  intros Hvalid Hrun. unfold dynamically_sized_matrix_to_string.
  rewrite Hvalid. cbn [negb].
  erewrite bind_ok by exact Hrun. cbv beta iota.
  destruct (GetOwnChildValue valobj (rows * cols)); cbn [negb]; [|reflexivity].
  erewrite bind_ok by apply extract_is_row_major_run. cbv beta.
  unfold bind, lift, ret, rendered.
  destruct (print_raw_matrix _ _ _ _); reflexivity.
Qed.

Lemma dynamic_raises (w w1 : world) (e : exn) :
  IsValid (m_data valobj) = true ->
  rows_and_cols valobj (GetExpressionPath valobj) w = (Raise e, w1) ->
  dynamically_sized_matrix_to_string valobj w = (Raise e, w1).
Proof.
  intros Hvalid Hrun. unfold dynamically_sized_matrix_to_string.
  rewrite Hvalid. cbn [negb]. now erewrite bind_raise by exact Hrun.
Qed.

End Steps.

(** ** The entry functions *)

Lemma std_open_targets (w : world) :
  std_open w ->
  exists out err, get_fd 1 (fds w) = Some out /\ get_fd 2 (fds w) = Some err.
Proof.
  intros [H1 H2].
  destruct (get_fd 1 (fds w)) as [out|]; [|congruence].
  destruct (get_fd 2 (fds w)) as [err|]; [|congruence].
  eauto.
Qed.

(** C1 (as amended).  On the fixed-size path a product [rows * cols] that
    is not the number of children of the inline array makes the formatter
    render [rows = element count], [cols = 1] and print the message; on the
    dynamic path there is no such comparison: the grid is rendered with the
    evaluated [rows] and [cols], and only the layout detector may print. *)
Theorem fallback_on_fixed_path_only :
  falls_back fixed_sized_matrix_to_string m_data_array
  /\ forall (valobj : SBValue) (w : world) (rows cols : Z) (x : option string),
      IsValid (m_data valobj) = true ->
      std_open w ->
      evaluated_dimensions valobj (GetExpressionPath valobj) = Ok (rows, cols) ->
      GetOwnChildValue valobj (rows * cols) = Ok x ->
      fst (dynamically_sized_matrix_to_string valobj w)
      = rendered (print_raw_matrix (GetChildValue (m_data valobj)) rows cols
                    (storage_order_of (GetTypeName valobj)))
      /\ exists w1,
          written w1
          = (written w
             ++ sunk (evaluation_noise valobj (GetExpressionPath valobj)))%list
          /\ snd (dynamically_sized_matrix_to_string valobj w)
             = snd (extract_is_row_major valobj w1).
Proof.
  split.
  - intros valobj w out rows cols Hvalid Hout Herr Hdim Hne.
    destruct (get_fd 2 (fds w)) as [err|] eqn:Herr'; [clear Herr | congruence].
    destruct (rows_and_cols_restores valobj (GetExpressionPath valobj) w out err
                Hout Herr') as [w1 [Hrun [Hw [H1 H2]]]].
    rewrite Hdim in Hrun.
    rewrite (fixed_steps valobj w w1 rows cols Hvalid Hrun).
    replace (rows * cols =? GetNumChildren (m_data_array valobj)) with false
      by (symmetry; apply Z.eqb_neq; exact Hne).
    cbn [negb fst snd]. split; [reflexivity|].
    set (w2 := write 1 (layout_error ++ Py.newline) w1).
    assert (Hin : In (out, layout_error ++ Py.newline) (written w2)).
    { unfold w2, write. rewrite H1. cbn [written].
      apply in_or_app. right. now left. }
    unfold extract_is_row_major.
    destruct (Re.search template_regex (GetTypeName valobj)) as [m|].
    + destruct (String.eqb (Re.group1 m) "1"); [exact Hin|].
      destruct (String.eqb (Re.group1 m) "0"); [exact Hin|].
      cbn [bind print2 ret snd]. unfold write.
      destruct (get_fd 1 (fds w2)); [|exact Hin].
      cbn [written]. apply in_or_app. now left.
    + cbn [bind print2 ret snd]. unfold write.
      destruct (get_fd 1 (fds w2)); [|exact Hin].
      cbn [written]. apply in_or_app. now left.
  - intros valobj w rows cols x Hvalid Hstd Hdim Hprobe.
    destruct (std_open_targets w Hstd) as [out [err [Hout Herr]]].
    destruct (rows_and_cols_restores valobj (GetExpressionPath valobj) w out err
                Hout Herr) as [w1 [Hrun [Hw _]]].
    rewrite Hdim in Hrun.
    rewrite (dynamic_steps valobj w w1 rows cols Hvalid Hrun), Hprobe.
    cbn [fst snd]. split; [reflexivity|].
    exists w1. split; [exact Hw | reflexivity].
Qed.

Lemma fallback_on_fixed_path_only_witness :
  fst (fixed_sized_matrix_to_string
         (Demo.fixed "Eigen::Matrix<double, 5, 1, 0, 5, 1>" 6 5 1) Demo.world0)
  = rendered (print_raw_matrix Demo.buffer 6 1 (Some false)).
Proof.
  destruct fallback_on_fixed_path_only as [H _].
  destruct (H (Demo.fixed "Eigen::Matrix<double, 5, 1, 0, 5, 1>" 6 5 1)
              Demo.world0 (File 1) 5 1) as [E _].
  - reflexivity.
  - reflexivity.
  - discriminate.
  - reflexivity.
  - simpl. lia.
  - exact E.
Defined.

(** C1 as stated fails on the dynamic path: a dynamic matrix whose storage
    pointer has one child and whose accessors give 2 and 2 is rendered as a
    2 by 2 grid, without the message. *)
Lemma fallback_dynamic_counterexample :
  ~ falls_back dynamically_sized_matrix_to_string m_data.
Proof.
  intros H.
  destruct (H (Demo.dynamic "Eigen::Matrix<double, -1, -1, 0, -1, -1>" 2 2 Demo.buffer)
              Demo.world0 (File 1) 2 2) as [E _].
  - reflexivity.
  - reflexivity.
  - discriminate.
  - reflexivity.
  - simpl. lia.
  - vm_compute in E. discriminate.
Qed.

(** C6.  On the dynamic path, when reading the child at index [rows * cols]
    raises, nothing is raised and nothing is rendered or printed: the
    output is "[uninitialized]". *)
Theorem uninitialized_guard (valobj : SBValue) (w : world) (rows cols : Z) (e : exn) :
  IsValid (m_data valobj) = true ->
  std_open w ->
  evaluated_dimensions valobj (GetExpressionPath valobj) = Ok (rows, cols) ->
  GetOwnChildValue valobj (rows * cols) = Raise e ->
  fst (dynamically_sized_matrix_to_string valobj w) = Ok (Some "[uninitialized]")
  /\ written (snd (dynamically_sized_matrix_to_string valobj w))
     = (written w ++ sunk (evaluation_noise valobj (GetExpressionPath valobj)))%list
  /\ (IsValid (m_data_array valobj) = false ->
      IsPointerType (m_data valobj) = true ->
      fst (format_matrix valobj w) = Ok (Some "[uninitialized]")).
Proof.
  intros Hvalid Hstd Hdim Hprobe.
  destruct (std_open_targets w Hstd) as [out [err [Hout Herr]]].
  destruct (rows_and_cols_restores valobj (GetExpressionPath valobj) w out err
              Hout Herr) as [w1 [Hrun [Hw _]]].
  rewrite Hdim in Hrun.
  assert (E : dynamically_sized_matrix_to_string valobj w
              = (Ok (Some uninitialized), w1)).
  { rewrite (dynamic_steps valobj w w1 rows cols Hvalid Hrun), Hprobe.
    reflexivity. }
  split; [|split].
  - now rewrite E.
  - now rewrite E.
  - intros Harr Hptr. unfold format_matrix. rewrite Harr, Hptr. now rewrite E.
Qed.

Lemma uninitialized_guard_witness :
  fst (dynamically_sized_matrix_to_string
         (Demo.dynamic "Eigen::Matrix<double, -1, -1, 0, -1, -1>" 2 2 Demo.unreachable)
         Demo.world0)
  = Ok (Some "[uninitialized]").
Proof.
  destruct (uninitialized_guard
              (Demo.dynamic "Eigen::Matrix<double, -1, -1, 0, -1, -1>" 2 2 Demo.unreachable)
              Demo.world0 2 2 (HostError "unreachable")) as [E _].
  - reflexivity.
  - split; discriminate.
  - reflexivity.
  - reflexivity.
  - exact E.
Defined.

(** C7.  The dispatcher takes the fixed-size path when the inline array
    member is valid; otherwise the dynamic path when the storage member is
    of pointer type; otherwise it returns the value's own summary, and does
    nothing else. *)
Theorem format_matrix_dispatch (valobj : SBValue) (w : world) :
  (IsValid (m_data_array valobj) = true ->
   format_matrix valobj w = fixed_sized_matrix_to_string valobj w)
  /\ (IsValid (m_data_array valobj) = false ->
      IsPointerType (m_data valobj) = true ->
      format_matrix valobj w = dynamically_sized_matrix_to_string valobj w)
  /\ (IsValid (m_data_array valobj) = false ->
      IsPointerType (m_data valobj) = false ->
      format_matrix valobj w = (Ok (GetSummary valobj), w)).
Proof.
  unfold format_matrix. split; [|split].
  - now intros ->.
  - now intros -> ->.
  - now intros -> ->.
Qed.

Lemma format_matrix_dispatch_witness :
  format_matrix Demo.other Demo.world0 = (Ok (Some "summary"), Demo.world0)
  /\ format_matrix (Demo.fixed "Eigen::Matrix<double, 2, 2, 0, 2, 2>" 4 2 2) Demo.world0
     = fixed_sized_matrix_to_string
         (Demo.fixed "Eigen::Matrix<double, 2, 2, 0, 2, 2>" 4 2 2) Demo.world0
  /\ format_matrix
       (Demo.dynamic "Eigen::Matrix<double, -1, -1, 0, -1, -1>" 2 2 Demo.buffer)
       Demo.world0
     = dynamically_sized_matrix_to_string
         (Demo.dynamic "Eigen::Matrix<double, -1, -1, 0, -1, -1>" 2 2 Demo.buffer)
         Demo.world0.
Proof.
  split; [|split].
  - apply (format_matrix_dispatch Demo.other Demo.world0); reflexivity.
  - apply (format_matrix_dispatch
             (Demo.fixed "Eigen::Matrix<double, 2, 2, 0, 2, 2>" 4 2 2) Demo.world0).
    reflexivity.
  - apply (format_matrix_dispatch
             (Demo.dynamic "Eigen::Matrix<double, -1, -1, 0, -1, -1>" 2 2 Demo.buffer)
             Demo.world0); reflexivity.
Defined.

(** ** The descriptors after a call *)

(** C8.  While the evaluator runs, what it writes on the standard streams
    lands in the null device; afterwards, whether the evaluation returned
    or raised, descriptors 1 and 2 are what they were and every descriptor
    that was open or closed before is as before -- except two that were
    closed and now stay open on the old standard output and standard error:
    the copies made by [os.dup], which [__exit__] never closes.  So the
    descriptor table is not what it was. *)
Theorem suppress_restores_but_leaks (valobj : SBValue) (path : string)
        (w : world) (out err : target) :
  get_fd 1 (fds w) = Some out ->
  get_fd 2 (fds w) = Some err ->
  exists (s0 s1 : nat) (w' : world),
    rows_and_cols valobj path w = (evaluated_dimensions valobj path, w')
    /\ written w' = (written w ++ sunk (evaluation_noise valobj path))%list
    /\ get_fd 1 (fds w') = Some out
    /\ get_fd 2 (fds w') = Some err
    /\ (forall fd, fd <> s0 -> fd <> s1 -> get_fd fd (fds w') = get_fd fd (fds w))
    /\ s0 <> s1
    /\ get_fd s0 (fds w) = None /\ get_fd s0 (fds w') = Some out
    /\ get_fd s1 (fds w) = None /\ get_fd s1 (fds w') = Some err
    /\ fds w' <> fds w.
Proof.
  intros Hout Herr.
  destruct (rows_and_cols_run valobj path w out err Hout Herr)
    as [s0 [s1 [w' [Hrun [Hw [Hne [H0 [H1 Hfd]]]]]]]].
  assert (Hs0 : get_fd s0 (fds w') = Some out).
  { rewrite Hfd. now rewrite Nat.eqb_refl. }
  assert (Hs1 : get_fd s1 (fds w') = Some err).
  { rewrite Hfd. replace (Nat.eqb s1 s0) with false
      by (symmetry; apply Nat.eqb_neq; congruence).
    now rewrite Nat.eqb_refl. }
  assert (Hother : forall fd, fd <> s0 -> fd <> s1 ->
                              get_fd fd (fds w') = get_fd fd (fds w)).
  { intros fd E0 E1. rewrite Hfd.
    replace (Nat.eqb fd s0) with false by (symmetry; now apply Nat.eqb_neq).
    replace (Nat.eqb fd s1) with false by (symmetry; now apply Nat.eqb_neq).
    reflexivity. }
  exists s0, s1, w'.
  repeat (split; [first [assumption | rewrite Hother; congruence]|]).
  intros E. rewrite E in Hs0. congruence.
Qed.

Lemma suppress_restores_but_leaks_witness :
  fds (snd (rows_and_cols (Demo.fixed "Eigen::Matrix<double, 2, 2, 0, 2, 2>" 4 2 2)
                          "m" Demo.world0))
  <> fds Demo.world0.
Proof.
  destruct (suppress_restores_but_leaks
              (Demo.fixed "Eigen::Matrix<double, 2, 2, 0, 2, 2>" 4 2 2) "m"
              Demo.world0 (File 1) (File 2))
    as [s0 [s1 [w' [Hrun [_ [_ [_ [_ [_ [_ [_ [_ [_ H]]]]]]]]]]]]].
  - reflexivity.
  - reflexivity.
  - rewrite Hrun. exact H.
Defined.

(** The table after one formatting call, and after a second one. *)
Example descriptors_after_formatting :
  let valobj := Demo.fixed "Eigen::Matrix<double, 2, 2, 0, 2, 2>" 4 2 2 in
  let w1 := snd (format_matrix valobj Demo.world0) in
  let w2 := snd (format_matrix valobj w1) in
  fds w1 = [Some (File 0); Some (File 1); Some (File 2); None; None;
            Some (File 1); Some (File 2)]
  /\ fds w2 = [Some (File 0); Some (File 1); Some (File 2); None; None;
               Some (File 1); Some (File 2); Some (File 1); Some (File 2)]
  /\ written w1 = [(Null_device, "evaluating m.rows()"); (Null_device, "warning");
                   (Null_device, "evaluating m.cols()"); (Null_device, "warning")].
Proof. repeat split; reflexivity. Qed.

(** ** One value, two calls *)

Section Determinism.

Variable valobj : SBValue.



Lemma block_result (path : string) (w : world) :
  std_open w ->
  rows_and_cols valobj path w
  = (evaluated_dimensions valobj path, snd (rows_and_cols valobj path w)).
Proof.
  intros Hstd.
  destruct (std_open_targets w Hstd) as [out [err [Hout Herr]]].
  destruct (rows_and_cols_restores valobj path w out err Hout Herr)
    as [w1 [Hrun _]].
  now rewrite Hrun.
Qed.




End Determinism.



(** ** Types the pattern does not know *)

Lemma contains_cons (needle : string) (a : ascii) (s : string) :
  contains needle (String a s) ->
  (exists post, String a s = needle ++ post) \/ contains needle s.
Proof.
  intros [pre [post E]]. destruct pre as [|b pre]; simpl in E.
  - left. now exists post.
  - right. injection E as _ E. now exists pre, post.
Qed.

Lemma contains_empty (needle : string) :
  needle <> "" -> ~ contains needle "".
Proof.
  intros Hne [pre [post E]].
  destruct pre; [|discriminate]. destruct needle; [congruence | discriminate].
Qed.

(** Walk along a string that is known up to some point, ruling out an
    occurrence of the needle at each position. *)
Ltac no_occurrence H :=
  repeat (apply contains_cons in H;
          destruct H as [[? H] | H]; [simpl in H; discriminate H|]).

Lemma array_prefix_harmless (args : string) :
  ~ contains "Eigen::Matrix<" args ->
  ~ contains "Eigen::Matrix<" ("Eigen::Array<" ++ args).
Proof.
  intros Hno H. simpl in H. no_occurrence H. exact (Hno H).
Qed.

Lemma plain_array_has_no_matrix :
  ~ contains "Eigen::Matrix<" "Eigen::Array<double, 2, 2, 1, 2, 2>".
Proof.
  intros H. no_occurrence H. revert H. now apply contains_empty.
Qed.

(** C10 (the part on every [Eigen::Array] type) fails for an array whose
    scalar type is a matrix: the search finds the signature of the scalar
    type, and the detector answers column-major for an array that is
    declared row-major. *)
Lemma array_of_matrices_counterexample :
  exists args,
    "Eigen::Array<Eigen::Matrix<double, 3, 1, 0, 3, 1>, -1, 1, 1, -1, 1>"
    = "Eigen::Array<" ++ args
    /\ forall (valobj : SBValue) (w : world),
        GetTypeName valobj
        = "Eigen::Array<Eigen::Matrix<double, 3, 1, 0, 3, 1>, -1, 1, 1, -1, 1>" ->
        extract_is_row_major valobj w = (Ok (Some false), w).
Proof.
  eexists. split; [reflexivity|].
  intros valobj w E. unfold extract_is_row_major. rewrite E. reflexivity.
Qed.

(** C10.  The pattern needs the literal [Eigen::Matrix<]: for a value whose
    type name does not contain it, the detector prints that it could not
    determine the layout and returns [None], and both entry functions hand
    [None] to the renderer as the ordering.  The formatter is registered
    for [Eigen::Array] as well, and the name of an [Eigen::Array] is such a
    name whenever its template arguments do not contain the literal
    themselves. *)
Theorem layout_unknown_without_matrix_prefix :
  In ("type summary add -x " ++ double_quote ++ "Eigen::Array" ++ double_quote
      ++ " -F LLDB_Eigen_Data_Formatter.format_matrix") __lldb_init_module
  /\ (forall args,
      ~ contains "Eigen::Matrix<" args ->
      ~ contains "Eigen::Matrix<" ("Eigen::Array<" ++ args))
  /\ forall (valobj : SBValue) (w : world),
      ~ contains "Eigen::Matrix<" (GetTypeName valobj) ->
      extract_is_row_major valobj w
      = (Ok None,
         write 1 ("Could not determine matrix layout from type: "
                  ++ GetTypeName valobj ++ Py.newline) w)
      /\ (forall rows cols,
             IsValid (m_data_array valobj) = true ->
             std_open w ->
             evaluated_dimensions valobj (GetExpressionPath valobj) = Ok (rows, cols) ->
             let data := m_data_array valobj in
             let mismatch := negb (rows * cols =? GetNumChildren data) in
             fst (format_matrix valobj w)
             = rendered (print_raw_matrix (GetChildValue data)
                           (if mismatch then GetNumChildren data else rows)
                           (if mismatch then 1 else cols) None))
      /\ (forall rows cols x,
             IsValid (m_data_array valobj) = false ->
             IsPointerType (m_data valobj) = true ->
             IsValid (m_data valobj) = true ->
             std_open w ->
             evaluated_dimensions valobj (GetExpressionPath valobj) = Ok (rows, cols) ->
             GetOwnChildValue valobj (rows * cols) = Ok x ->
             fst (format_matrix valobj w)
             = rendered (print_raw_matrix (GetChildValue (m_data valobj))
                           rows cols None)).
Proof.
  split; [right; left; reflexivity|].
  split; [exact array_prefix_harmless|].
  intros valobj w Hno.
  pose proof (search_needs_prefix _ Hno) as Hsearch.
  assert (Horder : storage_order_of (GetTypeName valobj) = None)
    by (unfold storage_order_of; now rewrite Hsearch).
  split; [|split].
  - unfold extract_is_row_major. now rewrite Hsearch.
  - intros rows cols Hvalid Hstd Hdim. cbv zeta.
    unfold format_matrix. rewrite Hvalid.
    pose proof (block_result valobj (GetExpressionPath valobj) w Hstd) as Hrun.
    rewrite Hdim in Hrun.
    rewrite (fixed_steps valobj w _ rows cols Hvalid Hrun).
    cbn [fst]. now rewrite Horder.
  - intros rows cols x Harr Hptr Hvalid Hstd Hdim Hprobe.
    unfold format_matrix. rewrite Harr, Hptr.
    pose proof (block_result valobj (GetExpressionPath valobj) w Hstd) as Hrun.
    rewrite Hdim in Hrun.
    rewrite (dynamic_steps valobj w _ rows cols Hvalid Hrun), Hprobe.
    cbn [fst]. now rewrite Horder.
Qed.

Lemma layout_unknown_without_matrix_prefix_witness :
  fst (format_matrix (Demo.fixed "Eigen::Array<double, 2, 2, 1, 2, 2>" 4 2 2)
                     Demo.world0)
  = rendered (print_raw_matrix Demo.buffer 2 2 None).
Proof.
  destruct layout_unknown_without_matrix_prefix as [_ [_ H]].
  destruct (H (Demo.fixed "Eigen::Array<double, 2, 2, 1, 2, 2>" 4 2 2) Demo.world0
              plain_array_has_no_matrix) as [_ [Hfixed _]].
  apply (Hfixed 2 2).
  - reflexivity.
  - split; discriminate.
  - reflexivity.
Defined.

(** A row-major array is shown with its rows and columns swapped. *)
Example row_major_array_is_strided :
  fst (format_matrix (Demo.fixed "Eigen::Array<double, 2, 2, 1, 2, 2>" 4 2 2)
                     Demo.world0)
  = Ok (Some ("rows: 2, cols: 2, is_row_major: None" ++ Py.newline
              ++ "[ 1 3;" ++ Py.newline
              ++ "  2 4;" ++ Py.newline
              ++ " ]" ++ Py.newline)).
Proof. reflexivity. Qed.

(** * Further properties of the renderer *)

Section Vectors.

Variable valobj : children.

(** X1.  For a matrix with one column or with one row the ordering makes no
    difference to the traversal: with one column row [r] is the element
    [r], with one row the only row is the elements [0 .. cols-1], whatever
    the ordering. *)
Theorem vector_traversal_ignores_order (rows cols r : Z) (order : option bool) :
  0 <= r < rows ->
  (cols = 1 -> _row_element valobj r rows cols order = Ok [valobj r])
  /\ (rows = 1 ->
      _row_element valobj r rows cols order
      = Ok (map valobj (Py.range2 0 cols))).
Proof.
  intros Hr. unfold _row_element. split.
  - intros ->.
    destruct (option_eq_dec_true order) as [-> | Ho].
    + rewrite row_major_indices. simpl. repeat f_equal. lia.
    + rewrite strided_indices by assumption. simpl. repeat f_equal. lia.
  - intros ->. assert (r = 0) as -> by lia.
    rewrite range2_explicit. replace (cols - 0) with cols by ring.
    destruct (option_eq_dec_true order) as [-> | Ho].
    + rewrite row_major_indices. reflexivity.
    + rewrite strided_indices by (assumption || lia). cbn [obind].
      do 2 f_equal. apply map_ext. intros k. lia.
Qed.

End Vectors.

Lemma vector_traversal_ignores_order_witness :
  _row_element Demo.buffer 3 6 1 (Some true) = Ok [Demo.buffer 3]
  /\ _row_element Demo.buffer 3 6 1 None = Ok [Demo.buffer 3].
Proof.
  split.
  - apply (proj1 (vector_traversal_ignores_order Demo.buffer 6 1 3 (Some true)
                    ltac:(lia))).
    reflexivity.
  - apply (proj1 (vector_traversal_ignores_order Demo.buffer 6 1 3 None
                    ltac:(lia))).
    reflexivity.
Defined.

Section Degenerate.

Variable valobj : children.
Variables rows cols : Z.
Variable order : option bool.

Lemma readable_nothing (vals : Z -> string) : readable valobj vals [].
Proof. intros i []. Qed.

Lemma range2_empty (a b : Z) : b <= a -> Py.range2 a b = [].
Proof.
  intros H. rewrite range2_explicit.
  replace (Z.to_nat (b - a)) with O by lia. reflexivity.
Qed.

Lemma range2_from_zero (n : Z) :
  Py.range2 0 n = map Z.of_nat (seq 0 (Z.to_nat n)).
Proof.
  rewrite range2_explicit. replace (n - 0) with n by ring.
  apply map_ext. intros k. lia.
Qed.

(** X2.  A matrix without rows, or with rows but without columns, is
    rendered without reading a single element: the output is the dimensions
    line and an empty pair of brackets in the first case, and one empty row
    group per row in the second. *)
Theorem degenerate_dimensions_read_nothing :
  (rows <= 0 -> 0 <= cols ->
   print_raw_matrix valobj rows cols order
   = Ok (dimensions_line rows cols order ++ "[" ++ " ]" ++ Py.newline))
  /\ (0 < rows -> cols <= 0 ->
      print_raw_matrix valobj rows cols order
      = Ok (dimensions_line rows cols order ++ "["
            ++ grid_text 0 (repeat [] (Z.to_nat rows)) ++ " ]" ++ Py.newline)).
Proof.
  split.
  - intros Hrows Hcols. unfold print_raw_matrix.
    replace (100 <? rows * cols) with false by (symmetry; apply Z.ltb_ge; nia).
    rewrite (range2_empty 0 (rows * cols)) by nia.
    rewrite (range2_empty 0 rows) by lia.
    cbn [padding_loop rows_loop obind]. f_equal.
    change ("" ++ header rows cols order) with (header rows cols order).
    rewrite header_split. now rewrite !app_assoc_str.
  - intros Hrows Hcols. unfold print_raw_matrix.
    replace (100 <? rows * cols) with false by (symmetry; apply Z.ltb_ge; nia).
    rewrite (range2_empty 0 (rows * cols)) by nia.
    cbn [padding_loop obind].
    rewrite range2_from_zero.
    rewrite (rows_loop_grid valobj (fun _ => "") rows cols order 1)
      by (try lia; rewrite (range2_empty 0 (rows * cols)) by nia;
          apply readable_nothing).
    cbn [obind]. f_equal.
    change ("" ++ header rows cols order) with (header rows cols order).
    rewrite header_split, !app_assoc_str.
    assert (E : forall s n,
               Z.of_nat (s + n) <= rows ->
               map (cells_of (fun _ => "") rows cols order 1)
                   (map Z.of_nat (seq s n))
               = repeat [] n).
    { intros s n. revert s. induction n as [|n IH]; intros s Hs; [reflexivity|].
      simpl. rewrite IH by lia. f_equal.
      unfold cells_of.
      assert (Hlen : List.length (indices_of rows cols order (Z.of_nat s))
                     = Z.to_nat cols).
      { apply (row_indices_length rows cols (Z.of_nat s) order); [lia|].
        apply row_indices_defined. lia. }
      replace (Z.to_nat cols) with O in Hlen by lia.
      destruct (indices_of rows cols order (Z.of_nat s)); [reflexivity|discriminate]. }
    rewrite E by lia. reflexivity.
Qed.

End Degenerate.

Lemma degenerate_dimensions_read_nothing_witness :
  print_raw_matrix Demo.unreachable 0 3 (Some true)
  = Ok (dimensions_line 0 3 (Some true) ++ "[" ++ " ]" ++ Py.newline)
  /\ print_raw_matrix Demo.unreachable 2 0 None
     = Ok (dimensions_line 2 0 None ++ "["
           ++ grid_text 0 (repeat [] (Z.to_nat 2)) ++ " ]" ++ Py.newline).
Proof.
  split.
  - apply (proj1 (degenerate_dimensions_read_nothing Demo.unreachable 0 3 (Some true))); lia.
  - apply (proj2 (degenerate_dimensions_read_nothing Demo.unreachable 2 0 None)); lia.
Defined.

(** ** Which elements are read *)

Section Coverage.

Variables rows cols : Z.
Variable order : option bool.

Lemma indices_of_row_major (j : Z) :
  indices_of rows cols (Some true) j
  = map (fun k => j * cols + Z.of_nat k) (seq 0 (Z.to_nat cols)).
Proof. unfold indices_of. now rewrite row_major_indices. Qed.

Lemma indices_of_strided (j : Z) :
  order <> Some true -> 0 <= j < rows ->
  indices_of rows cols order j
  = map (fun k => j + Z.of_nat k * rows) (seq 0 (Z.to_nat cols)).
Proof. intros Ho Hj. unfold indices_of. now rewrite strided_indices. Qed.

(** Every element of the buffer belongs to some row. *)
Lemma every_element_in_a_row (i : Z) :
  0 <= rows -> 0 <= i < rows * cols ->
  exists j, 0 <= j < rows /\ In i (indices_of rows cols order j).
Proof.
  intros Hrows Hi.
  assert (Hr : 0 < rows).
  { destruct (Z.eq_dec rows 0) as [E | E]; [|lia].
    rewrite E in Hi. simpl in Hi. lia. }
  assert (Hc : 0 < cols).
  { destruct (Z.lt_ge_cases 0 cols) as [H | H]; [exact H|].
    pose proof (Z.mul_nonneg_nonpos rows cols). lia. }
  destruct (option_eq_dec_true order) as [-> | Ho].
  - exists (i / cols).
    assert (Hq : 0 <= i / cols < rows).
    { split; [apply Z.div_pos; lia|].
      apply Z.div_lt_upper_bound; [lia|]. rewrite Z.mul_comm. lia. }
    split; [exact Hq|].
    rewrite indices_of_row_major. apply In_row_major.
    pose proof (Z.div_mod i cols ltac:(lia)) as Hdm.
    pose proof (Z.mod_pos_bound i cols Hc) as Hm. nia.
  - exists (i mod rows).
    pose proof (Z.mod_pos_bound i rows Hr) as Hm.
    split; [exact Hm|].
    rewrite indices_of_strided by assumption.
    apply In_stride; [exact Hm|].
    exists (i / rows). split; [apply Z.div_pos; lia|].
    split; [|lia].
    pose proof (Z.div_mod i rows ltac:(lia)) as Hdm. nia.
Qed.

(** An element belongs to one row only. *)
Lemma rows_are_disjoint (j j' i : Z) :
  0 <= j < rows -> 0 <= j' < rows ->
  In i (indices_of rows cols order j) ->
  In i (indices_of rows cols order j') ->
  j = j'.
Proof.
  intros Hj Hj' Hi Hi'.
  destruct (option_eq_dec_true order) as [-> | Ho].
  - rewrite indices_of_row_major in Hi, Hi'.
    apply In_row_major in Hi. apply In_row_major in Hi'. nia.
  - rewrite indices_of_strided in Hi, Hi' by assumption.
    apply In_stride in Hi; [|assumption]. apply In_stride in Hi'; [|assumption].
    destruct Hi as [k [Hk [E _]]]. destruct Hi' as [k' [Hk' [E' _]]].
    assert (k = k') by nia. lia.
Qed.

Lemma row_has_no_duplicate (j : Z) :
  0 <= j < rows -> NoDup (indices_of rows cols order j).
Proof.
  intros Hj.
  destruct (option_eq_dec_true order) as [-> | Ho].
  - rewrite indices_of_row_major.
    apply Finite.Injective_map_NoDup; [|apply seq_NoDup].
    intros a b E. lia.
  - rewrite indices_of_strided by assumption.
    apply Finite.Injective_map_NoDup; [|apply seq_NoDup].
    intros a b E. nia.
Qed.

Lemma visited_rows_no_duplicate (s n : nat) :
  Z.of_nat (s + n) <= rows ->
  NoDup (List.concat (map (indices_of rows cols order) (map Z.of_nat (seq s n)))).
Proof.
  revert s. induction n as [|n IH]; intros s Hs; simpl; [constructor|].
  apply NoDup_app.
  - apply row_has_no_duplicate. lia.
  - apply IH. lia.
  - intros i Hi Hi'. apply in_concat in Hi'.
    destruct Hi' as [l [Hl Hil]].
    apply in_map_iff in Hl. destruct Hl as [j [<- Hj]].
    apply in_map_iff in Hj. destruct Hj as [k [<- Hk]].
    apply in_seq in Hk.
    assert (Z.of_nat s = Z.of_nat k)
      by (apply (rows_are_disjoint _ _ i); assumption || lia).
    lia.
Qed.

Lemma map_seq_offset (g : nat -> Z) (c a m : nat) :
  map g (seq (c + a) m) = map (fun k => g (c + k)%nat) (seq a m).
Proof.
  revert a. induction m as [|m IH]; intros a; [reflexivity|].
  simpl. f_equal. rewrite <- Nat.add_succ_r. apply IH.
Qed.

(** X3.  Whatever the ordering, the rows of the grid together read every
    element of the buffer exactly once: the indices read, row after row,
    are a permutation of [0 .. rows*cols-1], and for a row-major matrix
    they are these indices in order. *)
Theorem every_element_shown_once :
  0 <= rows -> 0 <= cols ->
  Permutation (visited rows cols order) (Py.range2 0 (rows * cols))
  /\ (order = Some true ->
      visited rows cols order = Py.range2 0 (rows * cols)).
Proof.
  intros Hrows Hcols.
  assert (Hperm : Permutation (visited rows cols order)
                              (Py.range2 0 (rows * cols))).
  { apply NoDup_Permutation.
    - unfold visited. rewrite range2_from_zero.
      apply visited_rows_no_duplicate. lia.
    - rewrite range2_from_zero.
      apply Finite.Injective_map_NoDup; [|apply seq_NoDup].
      intros a b E. lia.
    - intros i. rewrite In_range2. unfold visited. rewrite in_concat. split.
      + intros [l [Hl Hi]]. apply in_map_iff in Hl. destruct Hl as [j [<- Hj]].
        apply In_range2 in Hj.
        apply (row_indices_in_buffer rows cols j order (indices_of rows cols order j));
          [lia | apply row_indices_defined; lia | exact Hi].
      + intros Hi. destruct (every_element_in_a_row i Hrows Hi) as [j [Hj Hin]].
        exists (indices_of rows cols order j). split; [|exact Hin].
        apply in_map. apply In_range2. lia. }
  split; [exact Hperm|].
  intros ->. unfold visited. rewrite !range2_from_zero.
  assert (E : forall n s,
             List.concat (map (indices_of rows cols (Some true))
                              (map Z.of_nat (seq s n)))
             = map (fun k => Z.of_nat s * cols + Z.of_nat k)
                   (seq 0 (Z.to_nat (Z.of_nat n * cols)))).
  { induction n as [|n IH]; intros s; [reflexivity|].
    cbn [seq map List.concat]. rewrite IH, indices_of_row_major.
    replace (Z.to_nat (Z.of_nat (S n) * cols))
      with (Z.to_nat cols + Z.to_nat (Z.of_nat n * cols))%nat by nia.
    rewrite seq_app, map_app. f_equal.
    replace (0 + Z.to_nat cols)%nat with (Z.to_nat cols + 0)%nat by lia.
    rewrite map_seq_offset. apply map_ext. intros k. lia. }
  rewrite (E (Z.to_nat rows) 0%nat).
  replace (Z.of_nat (Z.to_nat rows)) with rows by lia.
  apply map_ext. intros k. lia.
Qed.

End Coverage.

Lemma every_element_shown_once_witness :
  Permutation (visited 2 3 (Some false)) (Py.range2 0 (2 * 3)).
Proof.
  apply (proj1 (every_element_shown_once 2 3 (Some false) ltac:(lia) ltac:(lia))).
Defined.

(** ** One column *)



(** ** Elements that cannot be shown *)

Section Failures.

Variable valobj : children.

Lemma padding_loop_first_failure (e : exn) (i : Z) (n s : nat) (p : Z) :
  Z.of_nat s <= i < Z.of_nat (s + n) ->
  valobj i = Raise e ->
  (forall k, Z.of_nat s <= k < i -> exists v, valobj k = Ok v) ->
  padding_loop valobj (map Z.of_nat (seq s n)) p = Raise e.
Proof.
  revert s p. induction n as [|n IH]; intros s p Hi He Hbefore; [lia|].
  simpl. destruct (Z.eq_dec (Z.of_nat s) i) as [E | E].
  - rewrite E, He. reflexivity.
  - destruct (Hbefore (Z.of_nat s)) as [v Hv]; [lia|].
    rewrite Hv. cbn [obind]. apply IH; [lia | exact He|].
    intros k Hk. apply Hbefore. lia.
Qed.

(** X5.  The renderer does not catch what reading an element raises: when
    element [i] of a grid of at most 100 elements raises and the elements
    before it do not, the renderer raises the same exception. *)
Theorem element_exception_propagates (rows cols i : Z) (order : option bool)
        (e : exn) :
  rows * cols <= 100 ->
  0 <= i < rows * cols ->
  valobj i = Raise e ->
  (forall k, 0 <= k < i -> exists v, valobj k = Ok v) ->
  print_raw_matrix valobj rows cols order = Raise e.
Proof.
  intros Hcap Hi He Hbefore. unfold print_raw_matrix.
  replace (100 <? rows * cols) with false by (symmetry; apply Z.ltb_ge; lia).
  rewrite range2_from_zero.
  rewrite (padding_loop_first_failure e i); [reflexivity | lia | exact He|].
  intros k Hk. apply Hbefore. lia.
Qed.

Lemma padding_loop_succeeds (idx : list Z) (p : Z) :
  (forall i, In i idx -> exists v, valobj i = Ok v) ->
  exists q, padding_loop valobj idx p = Ok q.
Proof.
  revert p. induction idx as [|i idx IH]; intros p H; simpl; [eauto|].
  destruct (H i) as [v Hv]; [now left|]. rewrite Hv. cbn [obind].
  apply IH. intros k Hk. apply H. now right.
Qed.

(** A row whose elements are all read without an exception is justified,
    unless one of them has no text. *)
Lemma justify_cases (idx : list Z) (padding : Z) :
  (forall i, In i idx -> exists v, valobj i = Ok v) ->
  (justify (map valobj idx) padding = Raise AttributeError
   /\ exists i, In i idx /\ valobj i = Ok None)
  \/ ((exists cells, justify (map valobj idx) padding = Ok cells)
      /\ forall i, In i idx -> valobj i <> Ok None).
Proof.
  induction idx as [|i idx IH]; intros H; simpl.
  - right. split; [eauto | intros i []].
  - assert (Hrest : forall k, In k idx -> exists v, valobj k = Ok v)
      by (intros k Hk; apply H; now right).
    specialize (IH Hrest).
    destruct (H i) as [[val|] Hv]; [now left | | ]; rewrite Hv; cbn [obind].
    + destruct IH as [[E [k [Hk Hn]]] | [[cells E] Hno]].
      * left. rewrite E. split; [reflexivity|]. exists k. split; [now right | exact Hn].
      * right. rewrite E. cbn [obind]. split; [eexists; reflexivity|].
        intros k [<- | Hk]; [congruence | now apply Hno].
    + left. split; [reflexivity|]. exists i. split; [now left | exact Hv].
Qed.

Variables rows cols : Z.
Variable order : option bool.

Lemma rows_loop_attribute_error (padding : Z) (n s : nat) (output : string) :
  Z.of_nat (s + n) <= rows ->
  (forall i, 0 <= i < rows * cols -> exists v, valobj i = Ok v) ->
  (exists j i, Z.of_nat s <= j < Z.of_nat (s + n)
               /\ In i (indices_of rows cols order j)
               /\ valobj i = Ok None) ->
  rows_loop valobj (map Z.of_nat (seq s n)) rows cols order padding output
  = Raise AttributeError.
Proof.
  revert s output. induction n as [|n IH]; intros s output Hs Hok Hnone.
  - destruct Hnone as [j [_ [Hj _]]]. lia.
  - simpl. assert (Hrow : 0 <= Z.of_nat s < rows) by lia.
    unfold _row_element. rewrite (row_indices_defined rows cols order _ Hrow).
    cbn [obind].
    assert (Hrowok : forall i, In i (indices_of rows cols order (Z.of_nat s)) ->
                               exists v, valobj i = Ok v).
    { intros i Hi. apply Hok.
      apply (row_indices_in_buffer rows cols (Z.of_nat s) order
               (indices_of rows cols order (Z.of_nat s)));
        [exact Hrow | now apply row_indices_defined | exact Hi]. }
    destruct (justify_cases (indices_of rows cols order (Z.of_nat s)) padding Hrowok)
      as [[E _] | [[cells E] Hno]].
    + now rewrite E.
    + rewrite E. cbn [obind]. apply IH; [lia | exact Hok|].
      destruct Hnone as [j [i [Hj [Hi Hv]]]].
      exists j, i. split; [|split; assumption].
      destruct (Z.eq_dec j (Z.of_nat s)) as [-> | Hne]; [|lia].
      exfalso. exact (Hno i Hi Hv).
Qed.

(** X6.  An element without a text makes the renderer fail: when all the
    elements of a grid of at most 100 elements are read without an
    exception and one of them has the value [None], the renderer raises
    [AttributeError] instead of returning a grid. *)
Theorem element_without_text_raises (i : Z) :
  0 <= rows ->
  rows * cols <= 100 ->
  (forall k, 0 <= k < rows * cols -> exists v, valobj k = Ok v) ->
  0 <= i < rows * cols ->
  valobj i = Ok None ->
  print_raw_matrix valobj rows cols order = Raise AttributeError.
Proof.
  intros Hrows Hcap Hok Hi Hnone. unfold print_raw_matrix.
  replace (100 <? rows * cols) with false by (symmetry; apply Z.ltb_ge; lia).
  destruct (padding_loop_succeeds (Py.range2 0 (rows * cols)) 1) as [q Hq].
  { intros k Hk. apply Hok. apply In_range2 in Hk. lia. }
  rewrite Hq. cbn [obind]. rewrite range2_from_zero.
  rewrite rows_loop_attribute_error; [reflexivity | lia | exact Hok|].
  destruct (every_element_in_a_row rows cols order i Hrows Hi) as [j [Hj Hin]].
  exists j, i. split; [lia | split; assumption].
Qed.

End Failures.

Lemma element_exception_propagates_witness :
  print_raw_matrix Demo.unreachable 2 2 (Some true)
  = Raise (HostError "unreachable").
Proof.
  apply (element_exception_propagates Demo.unreachable 2 2 0 (Some true)).
  - lia.
  - lia.
  - reflexivity.
  - intros k Hk. lia.
Defined.

Lemma element_without_text_raises_witness :
  print_raw_matrix (fun _ => Ok None) 1 1 (Some false) = Raise AttributeError.
Proof.
  apply (element_without_text_raises (fun _ => Ok None) 1 1 (Some false) 0).
  - lia.
  - lia.
  - intros k _. now exists None.
  - lia.
  - reflexivity.
Defined.

(** * Further properties of the entry functions *)

Lemma marker_only_when_large (valobj : children) (rows cols : Z)
      (order : option bool) :
  print_raw_matrix valobj rows cols order = Ok too_large <-> 100 < rows * cols.
Proof.
  unfold print_raw_matrix. split.
  - destruct (Z.ltb_spec 100 (rows * cols)) as [H | H]; [now intros _|].
    destruct (padding_loop valobj (Py.range2 0 (rows * cols)) 1) as [p|e];
      cbn [obind]; [|discriminate].
    destruct (rows_loop valobj (Py.range2 0 rows) rows cols order p
                        ("" ++ header rows cols order)) as [out|e] eqn:E;
      cbn [obind]; [|discriminate].
    apply rows_loop_extends in E. destruct E as [rest ->].
    unfold header. simpl. discriminate.
  - intros H.
    replace (100 <? rows * cols) with true by (symmetry; apply Z.ltb_lt; lia).
    reflexivity.
Qed.

(** X7.  On the fixed-size path the marker for a large matrix depends on
    the storage alone: whatever [rows] and [cols] the accessors return, the
    output is "[matrix too large]" exactly when the inline array has more
    than 100 children. *)
Theorem fixed_marker_follows_storage (valobj : SBValue) (w : world) (rows cols : Z) :
  IsValid (m_data_array valobj) = true ->
  std_open w ->
  evaluated_dimensions valobj (GetExpressionPath valobj) = Ok (rows, cols) ->
  (fst (fixed_sized_matrix_to_string valobj w) = Ok (Some "[matrix too large]")
   <-> 100 < GetNumChildren (m_data_array valobj)).
Proof.
  intros Hvalid Hstd Hdim.
  pose proof (block_result valobj (GetExpressionPath valobj) w Hstd) as Hrun.
  rewrite Hdim in Hrun.
  rewrite (fixed_steps valobj w _ rows cols Hvalid Hrun). cbn [fst].
  set (num := GetNumChildren (m_data_array valobj)).
  assert (Hr : forall o, rendered o = Ok (Some "[matrix too large]")
                         <-> o = Ok too_large).
  { intros [s|e]; simpl; split; intros H; try discriminate.
    - injection H as ->. reflexivity.
    - injection H as ->. reflexivity. }
  rewrite Hr, marker_only_when_large.
  destruct (Z.eqb_spec (rows * cols) num) as [E | E]; cbn [negb]; lia.
Qed.

Lemma fixed_marker_follows_storage_witness :
  fst (fixed_sized_matrix_to_string
         (Demo.fixed "Eigen::Matrix<double, 2, 2, 0, 2, 2>" 101 2 2) Demo.world0)
  = Ok (Some "[matrix too large]").
Proof.
  apply (fixed_marker_follows_storage
           (Demo.fixed "Eigen::Matrix<double, 2, 2, 0, 2, 2>" 101 2 2)
           Demo.world0 2 2).
  - reflexivity.
  - split; discriminate.
  - reflexivity.
  - simpl. lia.
Defined.

(** X8.  On a type name that starts with the signature of [Eigen::Matrix]
    -- three parameters without a comma, a one-digit fourth parameter, a
    comma -- the detector reads the fourth parameter: row-major for [1],
    column-major for [0], unknown for any other digit, whatever follows. *)
Theorem detector_reads_fourth_parameter (valobj : SBValue) (w : world)
        (p1 p2 p3 rest : string) (c : ascii) :
  parameter p1 -> parameter p2 -> parameter p3 ->
  Re.digit c = true ->
  GetTypeName valobj
  = "Eigen::Matrix<" ++ p1 ++ ", " ++ p2 ++ ", " ++ p3 ++ ", "
    ++ String c ("," ++ rest) ->
  fst (extract_is_row_major valobj w)
  = Ok (if Ascii.eqb c "1" then Some true
        else if Ascii.eqb c "0" then Some false
        else None).
Proof.
  intros H1 H2 H3 Hd Hname.
  rewrite extract_is_row_major_value. f_equal.
  unfold storage_order_of. rewrite search_unfold.
  assert (Hm : Re.match_here template_regex (GetTypeName valobj)
               = Some [String c ""]).
  { apply match_template. exists (String c ""). split; [|reflexivity].
    exists p1, p2, p3, c, rest. auto 10. }
  rewrite Hm. change (Re.group1 [String c ""]) with (String c "").
  simpl. destruct (Ascii.eqb c "1"); [reflexivity|].
  destruct (Ascii.eqb c "0"); reflexivity.
Qed.

Lemma detector_reads_fourth_parameter_witness :
  fst (extract_is_row_major
         (Demo.fixed "Eigen::Matrix<float, -1, 3, 1, -1, 3>" 4 2 2) Demo.world0)
  = Ok (Some true).
Proof.
  apply (detector_reads_fourth_parameter
           (Demo.fixed "Eigen::Matrix<float, -1, 3, 1, -1, 3>" 4 2 2) Demo.world0
           "float" "-1" "3" " -1, 3>" "1").
  - split; [discriminate|]. intros a Ha. simpl in Ha.
    repeat (destruct Ha as [<- | Ha]; [reflexivity|]). contradiction.
  - split; [discriminate|]. intros a Ha. simpl in Ha.
    repeat (destruct Ha as [<- | Ha]; [reflexivity|]). contradiction.
  - split; [discriminate|]. intros a Ha. simpl in Ha.
    repeat (destruct Ha as [<- | Ha]; [reflexivity|]). contradiction.
  - reflexivity.
  - reflexivity.
Defined.

(** X9.  An exception of the expression evaluator is not caught: with the
    storage found and the standard streams open, the formatter raises what
    the evaluation raised, renders and prints nothing, and leaves the
    standard streams as they were; when it is the evaluation of [rows]
    that raises, [cols] is not evaluated. *)
Theorem evaluator_exception_propagates (valobj : SBValue) (w : world)
        (out err : target) (e : exn) :
  get_fd 1 (fds w) = Some out ->
  get_fd 2 (fds w) = Some err ->
  IsValid (m_data_array valobj) = true
  \/ (IsPointerType (m_data valobj) = true /\ IsValid (m_data valobj) = true) ->
  evaluated_dimensions valobj (GetExpressionPath valobj) = Raise e ->
  let path := GetExpressionPath valobj in
  exists w',
    format_matrix valobj w = (Raise e, w')
    /\ written w' = (written w ++ sunk (evaluation_noise valobj path))%list
    /\ get_fd 1 (fds w') = Some out
    /\ get_fd 2 (fds w') = Some err
    /\ (result (EvaluateExpression valobj (path ++ ".rows()")) = Raise e ->
        evaluation_noise valobj path
        = noise (EvaluateExpression valobj (path ++ ".rows()"))).
Proof.
  intros Hout Herr Hstorage Hdim. cbv zeta.
  destruct (rows_and_cols_restores valobj (GetExpressionPath valobj) w out err
              Hout Herr) as [w1 [Hrun [Hw [H1 H2]]]].
  rewrite Hdim in Hrun.
  exists w1. split; [|split; [exact Hw | split; [exact H1 | split; [exact H2|]]]].
  - unfold format_matrix.
    destruct (IsValid (m_data_array valobj)) eqn:Harr.
    + now apply fixed_raises.
    + destruct Hstorage as [Habs | [Hptr Hvalid]]; [discriminate|].
      rewrite Hptr. now apply dynamic_raises.
  - intros Hrows. unfold evaluation_noise. now rewrite Hrows.
Qed.

Lemma evaluator_exception_propagates_witness :
  fst (format_matrix
         (mkValue "Eigen::Matrix<double, 2, 2, 0, 2, 2>"
                  (mkData true false 4 Demo.buffer) Demo.no_data "m" None
                  Demo.buffer
                  (fun _ => mkEvaluation [(Stderr, "no process")]
                                         (Raise (HostError "no process"))))
         Demo.world0)
  = Raise (HostError "no process").
Proof.
  destruct (evaluator_exception_propagates
              (mkValue "Eigen::Matrix<double, 2, 2, 0, 2, 2>"
                       (mkData true false 4 Demo.buffer) Demo.no_data "m" None
                       Demo.buffer
                       (fun _ => mkEvaluation [(Stderr, "no process")]
                                              (Raise (HostError "no process"))))
              Demo.world0 (File 1) (File 2) (HostError "no process"))
    as [w' [E _]].
  - reflexivity.
  - reflexivity.
  - left. reflexivity.
  - reflexivity.
  - now rewrite E.
Defined.

(** * Further properties of the block that silences the evaluator *)

Section AnyTable.








Context {A : Type}.
Variable body : M A.
Variable r : outcome A.
Variable n : list (stream * string).
Hypothesis body_writes : forall w, body w = (r, emit n w).


End AnyTable.

Section AnyWorld.

Variable valobj : SBValue.





End AnyWorld.

(** With every descriptor closed beforehand. *)
Example formatting_with_closed_streams :
  fst (format_matrix (Demo.fixed "Eigen::Matrix<double, 2, 2, 1, 2, 2>" 4 2 2)
                     (mkWorld [] []))
  = fst (format_matrix (Demo.fixed "Eigen::Matrix<double, 2, 2, 1, 2, 2>" 4 2 2)
                       Demo.world0)
  /\ fds (snd (format_matrix (Demo.fixed "Eigen::Matrix<double, 2, 2, 1, 2, 2>" 4 2 2)
                             (mkWorld [] [])))
     = [None; None; Some Null_device; Some Null_device].
Proof. split; reflexivity. Qed.

(** * How the open descriptors add up *)

Section Leak.




Variable valobj : SBValue.


Hypothesis storage_found :
  IsValid (m_data_array valobj) = true
  \/ (IsPointerType (m_data valobj) = true /\ IsValid (m_data valobj) = true).



End Leak.


(** * What a call writes, and where *)

Section Log.

Variable valobj : SBValue.
Variable w : world.
Variables out err : target.
Hypothesis Hout : get_fd 1 (fds w) = Some out.
Hypothesis Herr : get_fd 2 (fds w) = Some err.

Lemma write_to_stdout (w0 : world) (text : string) :
  get_fd 1 (fds w0) = Some out ->
  write 1 text w0 = mkWorld (fds w0) (written w0 ++ [(out, text)]).
Proof. unfold write. now intros ->. Qed.

Lemma extract_is_row_major_log (w0 : world) :
  get_fd 1 (fds w0) = Some out ->
  written (snd (extract_is_row_major valobj w0))
  = (written w0
     ++ map (fun t => (out, t)) (detector_messages (GetTypeName valobj)))%list.
Proof.
  intros H. unfold extract_is_row_major, detector_messages.
  destruct (Re.search template_regex (GetTypeName valobj)) as [m|].
  - destruct (String.eqb (Re.group1 m) "1");
      [simpl; now rewrite app_nil_r|].
    destruct (String.eqb (Re.group1 m) "0");
      [simpl; now rewrite app_nil_r|].
    cbn [bind print2 ret snd]. now rewrite (write_to_stdout _ _ H).
  - cbn [bind print2 ret snd]. now rewrite (write_to_stdout _ _ H).
Qed.

(** X12.  What a call that renders writes, in order: first what the
    debugger wrote during the two evaluations, all of it to the null
    device; then, to the standard output as it was before the call, the
    message of the fallback if the fixed-size path fell back, and the
    message of the layout detector if it printed one.  Nothing else is
    written, and nothing to the standard error. *)
Theorem log_of_a_call (rows cols : Z) :
  evaluated_dimensions valobj (GetExpressionPath valobj) = Ok (rows, cols) ->
  let quiet := (written w
                ++ sunk (evaluation_noise valobj (GetExpressionPath valobj)))%list in
  let detector := map (fun t => (out, t)) (detector_messages (GetTypeName valobj)) in
  (IsValid (m_data_array valobj) = true ->
   written (snd (fixed_sized_matrix_to_string valobj w))
   = (quiet
      ++ (if rows * cols =? GetNumChildren (m_data_array valobj) then []
          else [(out, (layout_error ++ Py.newline)%string)])
      ++ detector)%list)
  /\ (IsValid (m_data valobj) = true ->
      written (snd (dynamically_sized_matrix_to_string valobj w))
      = (quiet
         ++ match GetOwnChildValue valobj (rows * cols) with
            | Ok _ => detector
            | Raise _ => []
            end)%list).
Proof.
  intros Hdim. cbv zeta.
  destruct (rows_and_cols_restores valobj (GetExpressionPath valobj) w out err
              Hout Herr) as [w1 [Hrun [Hw [H1 _]]]].
  rewrite Hdim in Hrun. split; intros Hvalid.
  - rewrite (fixed_steps valobj w w1 rows cols Hvalid Hrun). cbn [snd].
    destruct (rows * cols =? GetNumChildren (m_data_array valobj)); cbn [negb].
    + rewrite (extract_is_row_major_log w1 H1), Hw. reflexivity.
    + rewrite extract_is_row_major_log by (rewrite write_fds; exact H1).
      rewrite (write_to_stdout _ _ H1). cbn [written]. rewrite Hw.
      now rewrite <- !app_assoc.
  - rewrite (dynamic_steps valobj w w1 rows cols Hvalid Hrun).
    destruct (GetOwnChildValue valobj (rows * cols)); cbn [snd].
    + rewrite (extract_is_row_major_log w1 H1), Hw. reflexivity.
    + rewrite Hw. now rewrite app_nil_r.
Qed.

End Log.

Lemma log_of_a_call_witness :
  written (snd (fixed_sized_matrix_to_string
                  (Demo.fixed "Eigen::Array<double, 5, 1, 0, 5, 1>" 6 5 1)
                  Demo.world0))
  = [(Null_device, "evaluating m.rows()"); (Null_device, "warning");
     (Null_device, "evaluating m.cols()"); (Null_device, "warning");
     (File 1, layout_error ++ Py.newline);
     (File 1, "Could not determine matrix layout from type: "
              ++ "Eigen::Array<double, 5, 1, 0, 5, 1>" ++ Py.newline)].
Proof.
  apply (proj1 (log_of_a_call
                  (Demo.fixed "Eigen::Array<double, 5, 1, 0, 5, 1>" 6 5 1)
                  Demo.world0 (File 1) (File 2) eq_refl eq_refl 5 1 eq_refl)).
  reflexivity.
Defined.
